(** * SparseChem: the sparse feed-forward network of [sparsechem/models.py]

    A shallow embedding of [ModelConfig], [SparseLinear], [SparseInputNet],
    [IntermediateNet], [LastNet] and [SparseFFN].

    - Python integers are [Z]; Python floats are an abstract scalar type [V]
      with the operations the tensor backend applies to them.
    - A Python exception is a value of [exn]; code that can raise returns a
      [result].
    - Construction draws random numbers and training-mode dropout draws
      random masks: both thread the generator state [Rng] through the
      monad [M].
    - The attributes of a module under construction are a [gmap] from
      attribute names to values, so that reading an attribute that was never
      assigned raises [AttributeError] as [nn.Module.__getattr__] does. *)

From Stdlib Require Import ZArith Lia.
From stdpp Require Import base list gmap strings pretty.

Local Open Scope Z_scope.

(** ** Exceptions and results *)

Inductive exn : Set :=
| AssertionError
| AttributeError
| KeyError
| IndexError
| TypeError
| ValueError
| ZeroDivisionError
| RuntimeError.

Inductive result (A : Type) : Type :=
| Ok (a : A)
| Raise (e : exn).
Arguments Ok {A} a.
Arguments Raise {A} e.

Definition bindR {A B} (r : result A) (k : A -> result B) : result B :=
  match r with
  | Ok a => k a
  | Raise e => Raise e
  end.

Notation "'let?' x ':=' r 'in' k" := (bindR r (fun x => k))
  (at level 10, x pattern, r at level 100, k at level 200, only parsing).

Definition is_ok {A} (r : result A) : bool :=
  match r with Ok _ => true | Raise _ => false end.

(** [assert cond] *)
Definition py_assert (cond : bool) : result unit :=
  if cond then Ok tt else Raise AssertionError.

(** [l[i]] on a Python list: a negative index counts from the end. *)
Definition py_index {A} (l : list A) (i : Z) : result A :=
  let n := Z.of_nat (length l) in
  let j := if i <? 0 then i + n else i in
  if (0 <=? j) && (j <? n)
  then match l !! Z.to_nat j with
       | Some x => Ok x
       | None => Raise IndexError
       end
  else Raise IndexError.

(** [d[k]] on a Python dict. *)
Definition py_getitem {A} (d : gmap string A) (k : string) : result A :=
  match d !! k with
  | Some v => Ok v
  | None => Raise KeyError
  end.

(** [k in d.keys()] *)
Definition py_in_keys {A} (k : string) (d : gmap string A) : bool :=
  bool_decide (is_Some (d !! k)).

(** [obj.name] where [obj] maps the attributes assigned so far. *)
Definition getattr {A} (obj : gmap string A) (name : string) : result A :=
  match obj !! name with
  | Some v => Ok v
  | None => Raise AttributeError
  end.

(** ** Scalars and the random source of the tensor backend *)

Class Scalar (V : Type) := {
  fzero : V;
  fone : V;
  fadd : V -> V -> V;
  fmul : V -> V -> V;
  fdiv : V -> V -> V;
  fneg : V -> V;
  fsqrt : Z -> V;            (* [math.sqrt] of a non-negative integer *)
  frelu : V -> V;
  ftanh : V -> V;
  flt : V -> V -> bool;      (* [<] on floats *)
}.

Class Sampler (V Rng : Type) := {
  randn1 : Rng -> V * Rng;               (* one draw of [torch.randn] *)
  uniform1 : V -> V -> Rng -> V * Rng;   (* one draw of [uniform_(lo, hi)] *)
  dropout1 : V -> V -> Rng -> V * Rng;   (* training-mode dropout of one
                                            element: zeroed with probability
                                            [p], else scaled by 1/(1-p) *)
}.

(** ** Tensors *)

Section Tensors.
Context {V : Type} `{Scalar V}.

(** A dense two-dimensional tensor, as rows, with its shape. *)
Record Tensor : Type := mkTensor {
  t_shape : nat * nat;
  t_rows : list (list V);
}.

(** A sparse tensor in coordinate form: each entry of [sp_indices] is one
    column [(row, col)] of the 2 x nnz index matrix. *)
Record SparseTensor : Type := mkSparse {
  sp_indices : list (Z * Z);
  sp_values : list V;
  sp_size : nat * nat;
}.

Definition has_shape (t : Tensor) (r c : nat) : Prop :=
  t_shape t = (r, c) /\ length (t_rows t) = r /\
  Forall (fun row => length row = c) (t_rows t).

Definition vadd (u v : list V) : list V := zip_with fadd u v.
Definition vscale (a : V) (v : list V) : list V := map (fmul a) v.
Definition dot (u v : list V) : V := foldl fadd fzero (zip_with fmul u v).

Definition index_ok (size : nat * nat) (ix : Z * Z) : bool :=
  (0 <=? ix.1) && (ix.1 <? Z.of_nat size.1) &&
  (0 <=? ix.2) && (ix.2 <? Z.of_nat size.2).

(** [torch.sparse_coo_tensor(indices, values, size=[r, c])]: the sizes
    must be non-negative, there must be one value per index column, and
    every index must lie inside [size] ("size is inconsistent with
    indices"). *)
Definition sparse_coo_tensor (indices : list (Z * Z)) (values : list V)
    (size : Z * Z) : result SparseTensor :=
  if (size.1 <? 0) || (size.2 <? 0) then Raise RuntimeError
  else if negb (length indices =? length values)%nat then Raise RuntimeError
  else
    let sz := (Z.to_nat size.1, Z.to_nat size.2) in
    if forallb (index_ok sz) indices
    then Ok (mkSparse indices values sz)
    else Raise RuntimeError.

(** Row [i] of [X @ W] for sparse [X]: the entries of row [i] are
    accumulated in storage order. *)
Definition spmm_row (X : SparseTensor) (W : Tensor) (i : nat) : list V :=
  foldl (fun acc e =>
           if e.1.1 =? Z.of_nat i
           then vadd acc (vscale e.2 (default [] (t_rows W !! Z.to_nat e.1.2)))
           else acc)
        (replicate (t_shape W).2 fzero)
        (zip (sp_indices X) (sp_values X)).

(** [torch.mm(X, W)] with sparse [X] and dense [W]. *)
Definition torch_mm (X : SparseTensor) (W : Tensor) : result Tensor :=
  if ((sp_size X).2 =? (t_shape W).1)%nat
  then Ok (mkTensor ((sp_size X).1, (t_shape W).2)
                    (map (spmm_row X W) (seq 0 (sp_size X).1)))
  else Raise RuntimeError.

(** [T + b] for a matrix [T] and a vector [b] with one entry per column. *)
Definition add_bias (T : Tensor) (b : list V) : result Tensor :=
  if ((t_shape T).2 =? length b)%nat
  then Ok (mkTensor (t_shape T) (map (fun row => vadd row b) (t_rows T)))
  else Raise RuntimeError.

(** [F.linear(T, W)] = [T @ W.t()] for [W] of shape [out, in]. *)
Definition linear_mm (T W : Tensor) : result Tensor :=
  if ((t_shape T).2 =? (t_shape W).2)%nat
  then Ok (mkTensor ((t_shape T).1, (t_shape W).1)
                    (map (fun h => map (dot h) (t_rows W)) (t_rows T)))
  else Raise RuntimeError.

Definition map_tensor (f : V -> V) (T : Tensor) : Tensor :=
  mkTensor (t_shape T) (map (map f) (t_rows T)).

(** [T1 + T2] for two dense matrices of the same shape. *)
Definition tensor_add (T1 T2 : Tensor) : result Tensor :=
  if bool_decide (t_shape T1 = t_shape T2)
  then Ok (mkTensor (t_shape T1) (zip_with vadd (t_rows T1) (t_rows T2)))
  else Raise RuntimeError.

(** [l[mask]] for a boolean mask: the mask must be as long as [l]. *)
Fixpoint mask_select {A} (mask : list bool) (l : list A) : result (list A) :=
  match mask, l with
  | [], [] => Ok []
  | b :: mask', x :: l' =>
      let? r := mask_select mask' l' in
      Ok (if b then x :: r else r)
  | _, _ => Raise IndexError
  end.

End Tensors.

Arguments Tensor V : clear implicits.
Arguments SparseTensor V : clear implicits.

(** ** The activation registry (models.py, lines 5-8) *)

Inductive activation : Set := nn_ReLU | nn_Tanh.

Definition non_linearities : gmap string activation :=
  {[ "relu" := nn_ReLU; "tanh" := nn_Tanh ]}.

(** ** The generator-state monad *)

Section Model.
Context {V Rng : Type} `{Scalar V} `{Sampler V Rng}.

Definition M (A : Type) : Type := Rng -> result (A * Rng).

Definition ret {A} (a : A) : M A := fun g => Ok (a, g).

Definition bindM {A B} (m : M A) (k : A -> M B) : M B :=
  fun g => match m g with
           | Ok (a, g') => k a g'
           | Raise e => Raise e
           end.

Definition lift {A} (r : result A) : M A :=
  fun g => match r with
           | Ok a => Ok (a, g)
           | Raise e => Raise e
           end.

(** The value a computation returns, forgetting the generator state. *)
Definition value_of {A} (r : result (A * Rng)) : result A :=
  match r with
  | Ok (a, _) => Ok a
  | Raise e => Raise e
  end.

Notation "'let*' x ':=' m 'in' k" := (bindM m (fun x => k))
  (at level 10, x pattern, m at level 100, k at level 200, only parsing).

(** [for i in range(n): body(i)] *)
Definition py_range (n : Z) : list Z := map Z.of_nat (seq 0 (Z.to_nat n)).

Fixpoint for_each (l : list Z) (body : Z -> M unit) : M unit :=
  match l with
  | [] => ret tt
  | i :: l' => let* _ := body i in for_each l' body
  end.

(** *** Random tensors *)

Fixpoint sample_list (f : Rng -> V * Rng) (n : nat) (g : Rng) : list V * Rng :=
  match n with
  | O => ([], g)
  | S n' => let '(x, g1) := f g in
            let '(xs, g2) := sample_list f n' g1 in
            (x :: xs, g2)
  end.

Fixpoint sample_rows (f : Rng -> V * Rng) (r c : nat) (g : Rng)
    : list (list V) * Rng :=
  match r with
  | O => ([], g)
  | S r' => let '(row, g1) := sample_list f c g in
            let '(rows, g2) := sample_rows f r' c g1 in
            (row :: rows, g2)
  end.

(** A fresh [r x c] tensor filled from [f]; a negative dimension is the
    backend's RuntimeError. *)
Definition fresh_tensor (f : Rng -> V * Rng) (r c : Z) : M (Tensor V) :=
  fun g =>
    if (r <? 0) || (c <? 0) then Raise RuntimeError
    else let '(rows, g') := sample_rows f (Z.to_nat r) (Z.to_nat c) g in
         Ok (mkTensor (Z.to_nat r, Z.to_nat c) rows, g').

(** [torch.randn(r, c)] *)
Definition torch_randn (r c : Z) : M (Tensor V) := fresh_tensor randn1 r c.

(** [T.data.uniform_(lo, hi)]: every element is drawn again. *)
Definition uniform_ (lo hi : V) (T : Tensor V) : M (Tensor V) :=
  fun g =>
    let '(rows, g') := sample_rows (uniform1 lo hi) (t_shape T).1 (t_shape T).2 g in
    Ok (mkTensor (t_shape T) rows, g').

(** *** SparseLinear (models.py, lines 10-41) *)

Record SparseLinear : Type := mkSparseLinear {
  sl_weight : Tensor V;             (* [in_features, out_features] *)
  sl_bias : option (list V);
}.

Definition reset_parameters (self : SparseLinear) : M SparseLinear :=
  let out_features := (t_shape (sl_weight self)).2 in
  if (out_features =? 0)%nat
  then lift (Raise ZeroDivisionError)   (* [1. / math.sqrt(0)] *)
  else
    let stdv := fdiv fone (fsqrt (Z.of_nat out_features)) in
    let* w := uniform_ (fneg stdv) stdv (sl_weight self) in
    ret (mkSparseLinear w (option_map (map (fun _ => fzero)) (sl_bias self))).

Definition SparseLinear_init (in_features out_features : Z) (bias : bool)
    : M SparseLinear :=
  let* w0 := torch_randn in_features out_features in
  let w := map_tensor (fun x => fdiv x (fsqrt out_features)) w0 in
  let b := if bias then Some (replicate (Z.to_nat out_features) fzero)
           else None in
  reset_parameters (mkSparseLinear w b).

Definition SparseLinear_forward (self : SparseLinear) (input : SparseTensor V)
    : result (Tensor V) :=
  let? out := torch_mm input (sl_weight self) in
  match sl_bias self with
  | Some b => add_bias out b
  | None => Ok out
  end.

(** [str(b)] for a Python bool. *)
Definition py_str_bool (b : bool) : string := if b then "True" else "False".

(** [extra_repr]: [str.format] writes the two sizes in decimal and the
    test [self.bias is not None] as [True] or [False]. *)
Definition extra_repr (self : SparseLinear) : string :=
  "in_features=" +:+ pretty (t_shape (sl_weight self)).1 +:+
  ", out_features=" +:+ pretty (t_shape (sl_weight self)).2 +:+
  ", bias=" +:+ py_str_bool (match sl_bias self with
                             | Some _ => true
                             | None => false
                             end).

(** *** The [torch.nn] modules the models are built from *)


Record nn_Linear : Type := mkLinear {
  lin_weight : Tensor V;            (* [out_features, in_features] *)
  lin_bias : option (list V);
}.

#[warnings="-register-all"] Inductive Module : Type :=
| Activation (a : activation)
| Dropout (p : V)
| Linear (l : nn_Linear)
| Sequential (ms : list Module).

(** [nn.Linear(in_features, out_features, bias)], with the default
    initialisation: uniform in +-1/sqrt(in_features). *)
Definition nn_Linear_init (in_features out_features : Z) (bias : bool)
    : M nn_Linear :=
  let bound := if 0 <? in_features then fdiv fone (fsqrt in_features)
               else fzero in
  let* w := fresh_tensor (uniform1 (fneg bound) bound) out_features in_features in
  if bias
  then let* b := fresh_tensor (uniform1 (fneg bound) bound) 1 out_features in
       ret (mkLinear w (Some (concat (t_rows b))))
  else ret (mkLinear w None).

(** [nn.Dropout(p)]: [if p < 0 or p > 1: raise ValueError]. *)
Definition nn_Dropout_init (p : V) : result Module :=
  if flt p fzero || flt fone p then Raise ValueError else Ok (Dropout p).

Definition activation_fn (a : activation) : V -> V :=
  match a with
  | nn_ReLU => frelu
  | nn_Tanh => ftanh
  end.

Fixpoint dropout_list (p : V) (l : list V) (g : Rng) : list V * Rng :=
  match l with
  | [] => ([], g)
  | x :: l' => let '(y, g1) := dropout1 p x g in
               let '(ys, g2) := dropout_list p l' g1 in
               (y :: ys, g2)
  end.

Fixpoint dropout_rows (p : V) (rows : list (list V)) (g : Rng)
    : list (list V) * Rng :=
  match rows with
  | [] => ([], g)
  | r :: rows' => let '(y, g1) := dropout_list p r g in
                  let '(ys, g2) := dropout_rows p rows' g1 in
                  (y :: ys, g2)
  end.

(** [F.dropout(T, p, training)]: the identity outside training. *)
Definition F_dropout (T : Tensor V) (p : V) (training : bool) : M (Tensor V) :=
  if training
  then fun g => let '(rows, g') := dropout_rows p (t_rows T) g in
                Ok (mkTensor (t_shape T) rows, g')
  else ret T.

Definition nn_Linear_forward (l : nn_Linear) (T : Tensor V) : result (Tensor V) :=
  let? out := linear_mm T (lin_weight l) in
  match lin_bias l with
  | Some b => add_bias out b
  | None => Ok out
  end.

(** [module(T)]; [nn.Sequential] feeds each module the previous output. *)
Fixpoint forward (training : bool) (m : Module) (T : Tensor V) : M (Tensor V) :=
  match m with
  | Activation a => ret (map_tensor (activation_fn a) T)
  | Dropout p => F_dropout T p training
  | Linear l => lift (nn_Linear_forward l T)
  | Sequential ms =>
      (fix go (ms : list Module) (T : Tensor V) : M (Tensor V) :=
         match ms with
         | [] => ret T
         | m' :: ms' => let* T' := forward training m' T in go ms' T'
         end) ms T
  end.

(** ** ModelConfig (models.py, lines 43-75) *)

(** The arguments of [ModelConfig.__init__]; [None] is Python's [None]. *)
Record ModelConfigArgs : Type := mkArgs {
  a_input_size : Z;
  a_hidden_sizes : list Z;
  a_output_size : Z;
  a_mapping : option (list Z);
  a_hidden_dropout : V;
  a_last_dropout : V;
  a_weight_decay : V;
  a_input_size_freq : option Z;
  a_tail_hidden_size : option Z;
  a_non_linearity : string;
  a_last_non_linearity : string;
}.

Record ModelConfig : Type := mkConfig {
  mapping : option (list Z);
  input_size : Z;
  hidden_sizes : list Z;
  output_size : Z;
  hidden_dropout : V;
  last_dropout : V;
  last_non_linearity : string;
  weight_decay : V;
  tail_hidden_size : option Z;
  non_linearity : string;
  input_size_freq : Z;
}.

Definition ModelConfig_init (a : ModelConfigArgs) : result ModelConfig :=
  let? _ := py_assert (py_in_keys (a_non_linearity a) non_linearities) in
  let? _ := match a_mapping a with
            | Some m => py_assert (a_input_size a =? Z.of_nat (length m))
            | None => Ok tt
            end in
  let conf := mkConfig (a_mapping a) (a_input_size a) (a_hidden_sizes a)
                (a_output_size a) (a_hidden_dropout a) (a_last_dropout a)
                (a_last_non_linearity a) (a_weight_decay a)
                (a_tail_hidden_size a) (a_non_linearity a) in
  match a_input_size_freq a with
  | None => Ok (conf (a_input_size a))
  | Some f =>
      let? _ := py_assert (f <=? a_input_size a) in
      Ok (conf f)
  end.

(** ** SparseInputNet (models.py, lines 77-109) *)

(** The values [__init__] stores on [self]. *)
Inductive attr : Type :=
| AInt (z : Z)
| AInts (l : list Z)
| ASparseLinear (m : SparseLinear)
| AModule (m : Module).

Definition as_int (a : attr) : result Z :=
  match a with
  | AInt z => Ok z
  | _ => Raise TypeError
  end.

Definition as_ints (a : attr) : result (list Z) :=
  match a with
  | AInts l => Ok l
  | _ => Raise TypeError
  end.

(** [net_rare] is [nn.Sequential(SparseLinear, nn.Linear)], kept as the
    pair of its two layers since the first takes a sparse input. *)
Record SparseInputNet : Type := mkSparseInputNet {
  input_splits : list Z;
  net_freq : SparseLinear;
  net_rare : option (SparseLinear * nn_Linear);
}.

Definition SparseInputNet_init (conf : ModelConfig) : M SparseInputNet :=
  let splits := [input_size_freq conf; input_size conf - input_size_freq conf] in
  let self : gmap string attr := {[ "input_splits" := AInts splits ]} in
  let* s0 := lift (py_index splits 0) in
  let* h0 := lift (py_index (hidden_sizes conf) 0) in
  let* freq := SparseLinear_init s0 h0 true in
  let self := <[ "net_freq" := ASparseLinear freq ]> self in
  let* s1 := lift (py_index splits 1) in
  if s1 =? 0
  then ret (mkSparseInputNet splits freq None)
  else
    (* SparseLinear(self.input_splits[1], self.tail_hidden_size) *)
    let* s1 := lift (py_index splits 1) in
    let* ths := lift (let? a := getattr self "tail_hidden_size" in as_int a) in
    let* rare1 := SparseLinear_init s1 ths true in
    (* nn.Linear(self.tail_hidden_size, self.hidden_sizes[0], bias=False) *)
    let* ths := lift (let? a := getattr self "tail_hidden_size" in as_int a) in
    let* h0 := lift (let? a := getattr self "hidden_sizes" in
                     let? hs := as_ints a in py_index hs 0) in
    let* rare2 := nn_Linear_init ths h0 false in
    ret (mkSparseInputNet splits freq (Some (rare1, rare2))).

(** [mask_freq = x_ind[1] < self.input_splits[0]] *)
Definition mask_freq (x_ind : list (Z * Z)) (s0 : Z) : list bool :=
  map (fun ix => ix.2 <? s0) x_ind.

(** The coordinates and values handed to [sparse_coo_tensor] for [Xfreq]
    (lines 102-103). *)
Definition Xfreq_entries (x_ind : list (Z * Z)) (x_data : list V) (s0 : Z)
    : result (list (Z * Z) * list V) :=
  let? ind := mask_select (mask_freq x_ind s0) x_ind in
  let? val := mask_select (mask_freq x_ind s0) x_data in
  Ok (ind, val).

(** The coordinates and values handed to [sparse_coo_tensor] for [Xrare]
    (lines 106-107). *)
Definition Xrare_entries (x_ind : list (Z * Z)) (x_data : list V) (s0 : Z)
    : result (list (Z * Z) * list V) :=
  let? ind := mask_select (map negb (mask_freq x_ind s0)) x_ind in
  let? val := mask_select (map negb (mask_freq x_ind s0)) x_data in
  Ok (ind, val).

Definition net_rare_forward (rare : option (SparseLinear * nn_Linear))
    (X : SparseTensor V) : result (Tensor V) :=
  match rare with
  | Some (l1, l2) =>
      let? T := SparseLinear_forward l1 X in nn_Linear_forward l2 T
  | None => Raise TypeError       (* calling [None] *)
  end.

Definition SparseInputNet_forward (self : SparseInputNet)
    (x_ind : list (Z * Z)) (x_data : list V) (num_rows : Z)
    : result (Tensor V) :=
  let? s1 := py_index (input_splits self) 1 in
  if s1 =? 0
  then
    let? s0 := py_index (input_splits self) 0 in
    let? X := sparse_coo_tensor x_ind x_data (num_rows, s0) in
    SparseLinear_forward (net_freq self) X
  else
    let? s0 := py_index (input_splits self) 0 in
    let? (ind_f, val_f) := Xfreq_entries x_ind x_data s0 in
    let? s0 := py_index (input_splits self) 0 in
    let? Xfreq := sparse_coo_tensor ind_f val_f (num_rows, s0) in
    let? (ind_r, val_r) := Xrare_entries x_ind x_data s0 in
    let? s1 := py_index (input_splits self) 1 in
    let? Xrare := sparse_coo_tensor ind_r val_r (num_rows, s1) in
    let? Hf := SparseLinear_forward (net_freq self) Xfreq in
    let? Hr := net_rare_forward (net_rare self) Xrare in
    tensor_add Hf Hr.

(** ** IntermediateNet (models.py, lines 111-122) *)

Record IntermediateNet : Type := mkIntermediateNet {
  inet_net : Module;
}.

(** One pass of the loop body for index [i]: [self.intermediate_net] is
    read first; then the block is built and passed as the only argument
    of [add_module(name, module)]. *)
Definition IntermediateNet_block (conf : ModelConfig)
    (self : gmap string attr) (i : Z) : M unit :=
  let* target := lift (getattr self "intermediate_net") in
  let relu := Activation nn_ReLU in
  let* drop := lift (nn_Dropout_init (hidden_dropout conf)) in
  let* hi := lift (py_index (hidden_sizes conf) i) in
  let* hi1 := lift (py_index (hidden_sizes conf) (i + 1)) in
  let* lin := nn_Linear_init hi hi1 true in
  let block := Sequential [relu; drop; Linear lin] in
  lift (Raise TypeError).

Definition IntermediateNet_init (conf : ModelConfig) : M IntermediateNet :=
  let net := Sequential [] in
  let self : gmap string attr := {[ "net" := AModule net ]} in
  let* _ := for_each (py_range (Z.of_nat (length (hidden_sizes conf)) - 1))
                     (IntermediateNet_block conf self) in
  ret (mkIntermediateNet net).

Definition IntermediateNet_forward (training : bool) (self : IntermediateNet)
    (Hin : Tensor V) : M (Tensor V) :=
  forward training (inet_net self) Hin.

(** ** LastNet (models.py, lines 124-134) *)

Record LastNet : Type := mkLastNet {
  lnet_net : Module;
}.

Definition LastNet_init (conf : ModelConfig) : M LastNet :=
  let* act := lift (py_getitem non_linearities (last_non_linearity conf)) in
  let* drop := lift (nn_Dropout_init (last_dropout conf)) in
  let* hlast := lift (py_index (hidden_sizes conf) (-1)) in
  let* lin := nn_Linear_init hlast (output_size conf) true in
  ret (mkLastNet (Sequential [Activation act; drop; Linear lin])).

Definition LastNet_forward (training : bool) (self : LastNet)
    (Hin : Tensor V) : M (Tensor V) :=
  forward training (lnet_net self) Hin.

(** ** SparseFFN (models.py, lines 136-148) *)

(** [ffn_net] is [nn.Sequential(IntermediateNet(conf), LastNet(conf))]. *)
Record SparseFFN : Type := mkSparseFFN {
  input_net : SparseInputNet;
  ffn_net : IntermediateNet * LastNet;
}.

Definition SparseFFN_init (conf : ModelConfig) : M SparseFFN :=
  let* inp := SparseInputNet_init conf in
  let* inter := IntermediateNet_init conf in
  let* last := LastNet_init conf in
  ret (mkSparseFFN inp (inter, last)).

Definition SparseFFN_forward (training : bool) (self : SparseFFN)
    (x_ind : list (Z * Z)) (x_data : list V) (num_rows : Z) : M (Tensor V) :=
  let* Hin := lift (SparseInputNet_forward (input_net self) x_ind x_data num_rows) in
  let* Hmid := IntermediateNet_forward training (ffn_net self).1 Hin in
  LastNet_forward training (ffn_net self).2 Hmid.

End Model.

Arguments ModelConfigArgs V : clear implicits.
Arguments ModelConfig V : clear implicits.
Arguments SparseFFN V : clear implicits.
Arguments SparseInputNet V : clear implicits.
Arguments IntermediateNet V : clear implicits.
Arguments LastNet V : clear implicits.
Arguments Module V : clear implicits.
Arguments M Rng A : clear implicits.

(** ** Vocabulary of the statements *)

Section Vocabulary.
Context {V : Type}.

(** The configuration [__init__] stores when no assertion fails. *)
Definition stored_config (a : ModelConfigArgs V) : ModelConfig V :=
  mkConfig (a_mapping a) (a_input_size a) (a_hidden_sizes a)
    (a_output_size a) (a_hidden_dropout a) (a_last_dropout a)
    (a_last_non_linearity a) (a_weight_decay a)
    (a_tail_hidden_size a) (a_non_linearity a)
    (default (a_input_size a) (a_input_size_freq a)).

(** The two size conditions that make [__init__] fail. *)
Definition mapping_mismatch (a : ModelConfigArgs V) : Prop :=
  exists m, a_mapping a = Some m /\ Z.of_nat (length m) <> a_input_size a.

Definition freq_too_large (a : ModelConfigArgs V) : Prop :=
  exists f, a_input_size_freq a = Some f /\ a_input_size a < f.

(** The coordinates of a well-formed batch: rows below [r], columns below
    [c]. *)
Definition in_range (r c : Z) (ix : Z * Z) : Prop :=
  (0 <= ix.1 < r) /\ (0 <= ix.2 < c).

(** Two argument lists that agree on everything but [mapping]. *)
Definition same_except_mapping (a1 a2 : ModelConfigArgs V) : Prop :=
  a_input_size a1 = a_input_size a2 /\
  a_hidden_sizes a1 = a_hidden_sizes a2 /\
  a_output_size a1 = a_output_size a2 /\
  a_hidden_dropout a1 = a_hidden_dropout a2 /\
  a_last_dropout a1 = a_last_dropout a2 /\
  a_weight_decay a1 = a_weight_decay a2 /\
  a_input_size_freq a1 = a_input_size_freq a2 /\
  a_tail_hidden_size a1 = a_tail_hidden_size a2 /\
  a_non_linearity a1 = a_non_linearity a2 /\
  a_last_non_linearity a1 = a_last_non_linearity a2.

End Vocabulary.

Section LayerVocabulary.
Context {V : Type} `{Scalar V}.

(** A probability [nn.Dropout] accepts: neither below 0 nor above 1. *)
Definition valid_dropout (p : V) : bool := negb (flt p fzero || flt fone p).

(** A sparse-input layer whose weight is a well-formed [k x m] matrix and
    whose bias, when present, has [m] entries. *)
Definition SparseLinear_shaped (sl : @SparseLinear V) (k m : nat) : Prop :=
  has_shape (sl_weight sl) k m /\
  forall bs : list V, sl_bias sl = Some bs -> length bs = m.

(** A dense layer from [k] to [m] features: weight [m x k], bias of [m]
    entries when present. *)
Definition nn_Linear_shaped (l : @nn_Linear V) (k m : nat) : Prop :=
  has_shape (lin_weight l) m k /\
  forall bs : list V, lin_bias l = Some bs -> length bs = m.

(** The configurations [SparseFFN] can be built from. *)
Definition buildable (conf : ModelConfig V) : Prop :=
  input_size_freq conf = input_size conf /\
  0 <= input_size conf /\
  (exists h0, hidden_sizes conf = [h0] /\ 0 < h0) /\
  0 <= output_size conf /\
  py_in_keys (last_non_linearity conf) non_linearities = true /\
  valid_dropout (last_dropout conf) = true.

End LayerVocabulary.

(** ** An executable instance: integer scalars and a counter as generator *)

Module ZBackend.

#[export] Instance Z_Scalar : Scalar Z := {|
  fzero := 0;
  fone := 1;
  fadd := Z.add;
  fmul := Z.mul;
  fdiv := Z.div;
  fneg := Z.opp;
  fsqrt := Z.sqrt;
  frelu := Z.max 0;
  ftanh := Z.sgn;
  flt := Z.ltb;
|}.

(** The generator state is a counter; each draw returns a value derived
    from it and advances it. Dropout zeroes the element on odd states. *)
#[export] Instance Z_Sampler : Sampler Z Z := {|
  randn1 := fun g => (g, g + 1);
  uniform1 := fun lo hi g => (g mod 3 - 1, g + 1);
  dropout1 := fun p x g => (if Z.odd g then 0 else x, g + 1);
|}.

(** A configuration without rare split and with one hidden layer. *)
Definition args_plain : ModelConfigArgs Z :=
  mkArgs 10 [8] 2 None 0 0 0 None None "relu" "relu".

(** The same, with a column mapping of the right length. *)
Definition args_mapped : ModelConfigArgs Z :=
  mkArgs 10 [8] 2 (Some [9; 8; 7; 6; 5; 4; 3; 2; 1; 0]) 0 0 0 None None
    "relu" "relu".

(** A mapping of length 9 for [input_size = 10]. *)
Definition args_mapping9 : ModelConfigArgs Z :=
  mkArgs 10 [8] 2 (Some [0; 1; 2; 3; 4; 5; 6; 7; 8]) 0 0 0 None None
    "relu" "relu".

(** [input_size = 10], [input_size_freq = 6], [tail_hidden_size = 4]:
    rare block of width 4. *)
Definition args_split : ModelConfigArgs Z :=
  mkArgs 10 [8] 2 None 0 0 0 (Some 6) (Some 4) "relu" "relu".

(** Two hidden layers. *)
Definition args_deep : ModelConfigArgs Z :=
  mkArgs 10 [8; 4] 2 None 0 0 0 None None "relu" "relu".

(** An activation name outside the registry for the last layer. *)
Definition args_sigmoid : ModelConfigArgs Z :=
  mkArgs 10 [8] 2 None 0 0 0 None None "relu" "sigmoid".

(** A batch of three rows with entries in columns 2, 5, 7 and 9. *)
Definition batch_ind : list (Z * Z) := [(0, 2); (1, 5); (2, 7); (0, 9)].
Definition batch_data : list Z := [1; 2; 3; 4].
Definition batch_rows : Z := 3.

Definition const_tensor (r c : nat) (x : Z) : Tensor Z :=
  mkTensor (r, c) (replicate r (replicate c x)).

(** A SparseInputNet with splits [6, 4], tail width 4 and hidden width 8,
    with the layers lines 81-92 describe. *)
Definition net_split : SparseInputNet Z :=
  mkSparseInputNet [6; 4]
    (mkSparseLinear (const_tensor 6 8 1) (Some (replicate 8 0)))
    (Some (mkSparseLinear (const_tensor 4 4 1) (Some (replicate 4 0)),
           mkLinear (const_tensor 8 4 1) None)).

(** The first two entries of the batch: frequent columns only. *)
Definition batch_freq_ind : list (Z * Z) := [(0, 2); (1, 5)].
Definition batch_freq_data : list Z := [1; 2].

(** Arguments [ModelConfig] never looks at, set to values no layer
    accepts: no hidden size, a negative output size, dropout probabilities
    of 5 and -1. *)
Definition args_unchecked : ModelConfigArgs Z :=
  mkArgs 10 [] (-2) None 5 (-1) 0 None None "relu" "none".

(** A frequent layer from 6 columns to 8 features. *)
Definition layer_6_8 : @SparseLinear Z :=
  mkSparseLinear (const_tensor 6 8 1) (Some (replicate 8 2)).

End ZBackend.

(** * Properties *)

(** ** Python helpers *)

Lemma non_linearities_keys (s : string) :
  py_in_keys s non_linearities = true <-> s = "relu" \/ s = "tanh".
Proof.
  unfold py_in_keys, non_linearities.
  rewrite bool_decide_eq_true.
  destruct (decide (s = "relu")) as [->|Hr].
  { rewrite lookup_insert_eq. split; eauto. }
  rewrite lookup_insert_ne by congruence.
  destruct (decide (s = "tanh")) as [->|Ht].
  { rewrite lookup_singleton_eq. split; eauto. }
  rewrite lookup_singleton_ne by congruence.
  split; [intros [x Hx]; discriminate | intros [?|?]; contradiction].
Qed.

Lemma py_assert_ok (b : bool) : py_assert b = Ok tt <-> b = true.
Proof. destruct b; simpl; split; congruence. Qed.

Lemma py_assert_raise (b : bool) (e : exn) :
  py_assert b = Raise e <-> b = false /\ e = AssertionError.
Proof. destruct b; simpl; split; [congruence| intros [? ?]; congruence | intros [=]; auto | intros [_ ->]; auto]. Qed.

Lemma py_index_head {A} (x : A) (l : list A) : py_index (x :: l) 0 = Ok x.
Proof.
  unfold py_index. cbn [length].
  replace (0 <? 0) with false by reflexivity.
  assert (Hn : (0 <? Z.of_nat (S (length l))) = true) by (apply Z.ltb_lt; lia).
  rewrite Hn. reflexivity.
Qed.

Lemma py_index_nil {A} (i : Z) : py_index (@nil A) i = Raise IndexError.
Proof.
  unfold py_index. cbn [length].
  destruct (i <? 0) eqn:Hi;
    match goal with |- context [?a && ?b] => destruct (a && b) eqn:E end;
    try reflexivity;
    apply andb_true_iff in E as [E1 E2];
    apply Z.leb_le in E1; apply Z.ltb_lt in E2; lia.
Qed.

Lemma py_index_last_single {A} (x : A) : py_index [x] (-1) = Ok x.
Proof. reflexivity. Qed.

(** ** ModelConfig *)

Section ConfigProps.
Context {V : Type}.

Lemma ModelConfig_init_only_asserts (a : ModelConfigArgs V) (e : exn) :
  ModelConfig_init a = Raise e -> e = AssertionError.
Proof.
  unfold ModelConfig_init.
  destruct (py_in_keys _ _); simpl; [|congruence].
  destruct (a_mapping a) as [m|]; simpl.
  - destruct (a_input_size a =? Z.of_nat (length m)); simpl; [|congruence].
    destruct (a_input_size_freq a) as [f|]; simpl; [|congruence].
    destruct (f <=? a_input_size a); simpl; congruence.
  - destruct (a_input_size_freq a) as [f|]; simpl; [|congruence].
    destruct (f <=? a_input_size a); simpl; congruence.
Qed.

Lemma ModelConfig_init_ok (a : ModelConfigArgs V) (conf : ModelConfig V) :
  ModelConfig_init a = Ok conf -> conf = stored_config a.
Proof.
  unfold ModelConfig_init, stored_config.
  destruct (py_in_keys _ _); simpl; [|congruence].
  destruct (a_mapping a) as [m|]; simpl.
  - destruct (a_input_size a =? Z.of_nat (length m)); simpl; [|congruence].
    destruct (a_input_size_freq a) as [f|]; simpl; [|congruence].
    destruct (f <=? a_input_size a); simpl; congruence.
  - destruct (a_input_size_freq a) as [f|]; simpl; [|congruence].
    destruct (f <=? a_input_size a); simpl; congruence.
Qed.

(** An unknown [non_linearity] is rejected at construction (line 57). *)
Lemma ModelConfig_init_checks_non_linearity (a : ModelConfigArgs V) :
  py_in_keys (a_non_linearity a) non_linearities = false ->
  ModelConfig_init a = Raise AssertionError.
Proof. intros Hk. unfold ModelConfig_init. rewrite Hk. reflexivity. Qed.

(** [last_non_linearity] is stored without being looked at: replacing it
    by any string leaves the outcome of the validation unchanged. *)
Lemma ModelConfig_init_ignores_last_non_linearity
    (a : ModelConfigArgs V) (s : string) :
  is_ok (ModelConfig_init
           (mkArgs (a_input_size a) (a_hidden_sizes a) (a_output_size a)
              (a_mapping a) (a_hidden_dropout a) (a_last_dropout a)
              (a_weight_decay a) (a_input_size_freq a) (a_tail_hidden_size a)
              (a_non_linearity a) s))
  = is_ok (ModelConfig_init a).
Proof.
  unfold ModelConfig_init; simpl.
  destruct (py_in_keys _ _); simpl; [|reflexivity].
  destruct (a_mapping a) as [m|]; simpl.
  - destruct (a_input_size a =? Z.of_nat (length m)); simpl; [|reflexivity].
    destruct (a_input_size_freq a) as [f|]; simpl; [|reflexivity].
    destruct (f <=? a_input_size a); reflexivity.
  - destruct (a_input_size_freq a) as [f|]; simpl; [|reflexivity].
    destruct (f <=? a_input_size a); reflexivity.
Qed.

(** C5: when both activation names are in {relu, tanh}, construction fails
    if and only if a mapping is given whose length differs from
    [input_size], or [input_size_freq] is given and exceeds [input_size];
    every failure is an AssertionError; otherwise the configuration is
    stored, with [input_size_freq] derived as [input_size] when omitted, in
    which case only the mapping check can fail. *)
Theorem ModelConfig_init_fails_iff (a : ModelConfigArgs V) :
  (a_non_linearity a = "relu" \/ a_non_linearity a = "tanh") ->
  (a_last_non_linearity a = "relu" \/ a_last_non_linearity a = "tanh") ->
  (is_ok (ModelConfig_init a) = false <->
     mapping_mismatch a \/ freq_too_large a) /\
  (forall e, ModelConfig_init a = Raise e -> e = AssertionError) /\
  (is_ok (ModelConfig_init a) = true ->
     ModelConfig_init a = Ok (stored_config a)) /\
  (a_input_size_freq a = None ->
     input_size_freq (stored_config a) = a_input_size a /\
     (is_ok (ModelConfig_init a) = false <-> mapping_mismatch a)).
Proof.
  intros Hnl _.
  apply non_linearities_keys in Hnl.
  assert (Hiff : is_ok (ModelConfig_init a) = false <->
                 mapping_mismatch a \/ freq_too_large a).
  { unfold ModelConfig_init, mapping_mismatch, freq_too_large.
    rewrite Hnl; simpl.
    destruct (a_mapping a) as [m|]; simpl.
    - destruct (Z.eqb_spec (a_input_size a) (Z.of_nat (length m))) as [Hm|Hm]; simpl.
      + destruct (a_input_size_freq a) as [f|]; simpl.
        * destruct (Z.leb_spec f (a_input_size a)); simpl.
          -- split; [discriminate|].
             intros [(m' & [= <-] & Hne)|(f' & [= <-] & Hlt)]; [congruence|lia].
          -- split; [|reflexivity]. intros _. right. eauto.
        * split; [discriminate|].
          intros [(m' & [= <-] & Hne)|(f' & [=] & _)]. congruence.
      + split; [|reflexivity]. intros _. left. exists m. split; congruence.
    - destruct (a_input_size_freq a) as [f|]; simpl.
      + destruct (Z.leb_spec f (a_input_size a)); simpl.
        * split; [discriminate|].
          intros [(m' & [=] & _)|(f' & [= <-] & Hlt)]. lia.
        * split; [|reflexivity]. intros _. right. eauto.
      + split; [discriminate|].
        intros [(m' & [=] & _)|(f' & [=] & _)]. }
  split; [exact Hiff|].
  split; [intros e; apply ModelConfig_init_only_asserts|].
  split.
  - destruct (ModelConfig_init a) as [conf|e] eqn:E; simpl; [|discriminate].
    intros _. f_equal. apply ModelConfig_init_ok. exact E.
  - intros Hnone. split.
    + unfold stored_config; simpl. rewrite Hnone. reflexivity.
    + rewrite Hiff. split; [|auto].
      intros [Hm|(f & Hf & _)]; [exact Hm|congruence].
Qed.

End ConfigProps.

(** ** Construction of the layers *)

Section InitProps.
Context {V Rng : Type} `{Scalar V} `{Sampler V Rng}.

Lemma sample_list_length (f : Rng -> V * Rng) (n : nat) (g : Rng) :
  length (sample_list f n g).1 = n.
Proof.
  revert g; induction n as [|n IH]; intros g; simpl; [reflexivity|].
  destruct (f g) as [x g1]. specialize (IH g1).
  destruct (sample_list f n g1) as [xs g2]. simpl in *. congruence.
Qed.

Lemma sample_rows_shape (f : Rng -> V * Rng) (r c : nat) (g : Rng) :
  length (sample_rows f r c g).1 = r /\
  Forall (fun row => length row = c) (sample_rows f r c g).1.
Proof.
  revert g; induction r as [|r IH]; intros g; simpl; [split; [reflexivity|constructor]|].
  pose proof (sample_list_length f c g) as Hl.
  destruct (sample_list f c g) as [row g1]. specialize (IH g1).
  destruct (sample_rows f r c g1) as [rows g2]. simpl in *.
  destruct IH as [IH1 IH2]. split; [congruence|constructor; assumption].
Qed.

Lemma zero_replicate (n : nat) :
  map (fun _ : V => fzero) (replicate n fzero) = replicate n fzero.
Proof. induction n as [|n IHn]; simpl; [reflexivity|]. rewrite IHn. reflexivity. Qed.

Lemma fresh_tensor_ok (f : Rng -> V * Rng) (r c : Z) (g : Rng) :
  0 <= r -> 0 <= c ->
  exists T g', fresh_tensor f r c g = Ok (T, g') /\
               has_shape T (Z.to_nat r) (Z.to_nat c).
Proof.
  intros Hr Hc. unfold fresh_tensor.
  assert ((r <? 0) || (c <? 0) = false) as ->.
  { apply orb_false_iff; split; apply Z.ltb_ge; assumption. }
  pose proof (sample_rows_shape f (Z.to_nat r) (Z.to_nat c) g) as [H1 H2].
  destruct (sample_rows f (Z.to_nat r) (Z.to_nat c) g) as [rows g'].
  eexists _, _. split; [reflexivity|].
  unfold has_shape; simpl in *. auto.
Qed.

Lemma fresh_tensor_negative (f : Rng -> V * Rng) (r c : Z) (g : Rng) :
  r < 0 \/ c < 0 -> fresh_tensor f r c g = Raise RuntimeError.
Proof.
  intros Hneg. unfold fresh_tensor.
  assert ((r <? 0) || (c <? 0) = true) as ->; [|reflexivity].
  apply orb_true_iff. destruct Hneg; [left|right]; apply Z.ltb_lt; assumption.
Qed.

Lemma uniform_ok (lo hi : V) (T : Tensor V) (g : Rng) :
  exists T' g', uniform_ lo hi T g = Ok (T', g') /\
                has_shape T' (t_shape T).1 (t_shape T).2.
Proof.
  unfold uniform_.
  pose proof (sample_rows_shape (uniform1 lo hi) (t_shape T).1 (t_shape T).2 g) as [H1 H2].
  destruct (sample_rows _ _ _ g) as [rows g'].
  eexists _, _. split; [reflexivity|].
  unfold has_shape; simpl in *. destruct (t_shape T); auto.
Qed.

(** [SparseLinear(in_features, out_features)] succeeds for a non-negative
    input width and a positive output width. *)
Lemma SparseLinear_init_ok (i o : Z) (b : bool) (g : Rng) :
  0 <= i -> 0 < o ->
  exists sl g', SparseLinear_init i o b g = Ok (sl, g') /\
    has_shape (sl_weight sl) (Z.to_nat i) (Z.to_nat o) /\
    sl_bias sl = if b then Some (replicate (Z.to_nat o) fzero) else None.
Proof.
  intros Hi Ho. unfold SparseLinear_init, bindM, torch_randn.
  destruct (fresh_tensor_ok randn1 i o g) as (T & g1 & -> & (Hs & _)); [lia..|].
  unfold reset_parameters; cbn [sl_weight sl_bias map_tensor t_shape].
  rewrite Hs; cbn [snd].
  destruct (Nat.eqb_spec (Z.to_nat o) 0) as [Hz|_]; [lia|].
  unfold bindM.
  match goal with |- context [uniform_ ?lo ?hi ?T' g1] =>
    destruct (uniform_ok lo hi T' g1) as (T2 & g2 & -> & Hs2) end.
  cbn [t_shape map_tensor] in Hs2. rewrite Hs in Hs2. cbn [fst snd] in Hs2.
  eexists _, _. split; [reflexivity|].
  cbn [sl_weight sl_bias]. split; [exact Hs2|].
  destruct b; cbn [option_map]; [|reflexivity].
  f_equal. apply zero_replicate.
Qed.

(** A zero output width makes [reset_parameters] divide by zero. *)
Lemma SparseLinear_init_zero_width (i : Z) (b : bool) (g : Rng) :
  0 <= i -> SparseLinear_init i 0 b g = Raise ZeroDivisionError.
Proof.
  intros Hi. unfold SparseLinear_init, bindM, torch_randn.
  destruct (fresh_tensor_ok randn1 i 0 g) as (T & g1 & -> & (Hs & _)); [lia..|].
  unfold reset_parameters; cbn [sl_weight sl_bias map_tensor t_shape].
  rewrite Hs. reflexivity.
Qed.

Lemma nn_Linear_init_ok (i o : Z) (b : bool) (g : Rng) :
  0 <= i -> 0 <= o ->
  exists l g', nn_Linear_init i o b g = Ok (l, g') /\
    has_shape (lin_weight l) (Z.to_nat o) (Z.to_nat i) /\
    match lin_bias l with
    | Some bs => b = true /\ length bs = Z.to_nat o
    | None => b = false
    end.
Proof.
  intros Hi Ho. unfold nn_Linear_init, bindM.
  match goal with |- context [fresh_tensor ?f o i g] =>
    destruct (fresh_tensor_ok f o i g) as (W & g1 & -> & HW); [lia..|];
    destruct b;
      [destruct (fresh_tensor_ok f 1 o g1) as (B & g2 & -> & HB); [lia..|]|]
  end.
  - eexists _, _. split; [reflexivity|]. cbn [lin_weight lin_bias].
    split; [exact HW|]. split; [reflexivity|].
    destruct HB as (_ & Hlen & Hall).
    destruct (t_rows B) as [|row [|? ?]]; simpl in Hlen; try discriminate.
    simpl. rewrite app_nil_r. inversion Hall; subst. assumption.
  - eexists _, _. split; [reflexivity|]. cbn [lin_weight lin_bias].
    split; [exact HW|reflexivity].
Qed.

End InitProps.

(** ** SparseInputNet *)

Section InputProps.
Context {V Rng : Type} `{Scalar V} `{Sampler V Rng}.

Lemma py_index_pair_0 (a b : Z) : py_index [a; b] 0 = Ok a.
Proof. reflexivity. Qed.

Lemma py_index_pair_1 (a b : Z) : py_index [a; b] 1 = Ok b.
Proof. reflexivity. Qed.

Lemma index_ok_in_range (r c : Z) (ix : Z * Z) :
  0 <= r -> 0 <= c ->
  index_ok (Z.to_nat r, Z.to_nat c) ix = true <-> in_range r c ix.
Proof.
  intros Hr Hc. unfold index_ok, in_range; cbn [fst snd].
  rewrite !Z2Nat.id by assumption.
  rewrite !andb_true_iff, !Z.leb_le, !Z.ltb_lt. tauto.
Qed.

Lemma sparse_coo_tensor_ok (ind : list (Z * Z)) (val : list V) (r c : Z) :
  0 <= r -> 0 <= c -> length ind = length val ->
  Forall (in_range r c) ind ->
  sparse_coo_tensor ind val (r, c)
  = Ok (mkSparse ind val (Z.to_nat r, Z.to_nat c)).
Proof.
  intros Hr Hc Hlen Hall. unfold sparse_coo_tensor; cbn [fst snd].
  assert ((r <? 0) || (c <? 0) = false) as ->.
  { apply orb_false_iff; split; apply Z.ltb_ge; assumption. }
  rewrite Hlen, Nat.eqb_refl; cbn [negb].
  assert (forallb (index_ok (Z.to_nat r, Z.to_nat c)) ind = true) as ->;
    [|reflexivity].
  apply forallb_forall. intros ix Hin.
  apply index_ok_in_range; [assumption..|].
  rewrite Forall_forall in Hall. apply Hall.
  apply list_elem_of_In. exact Hin.
Qed.

(** A coordinate outside the declared size is rejected. *)
Lemma sparse_coo_tensor_rejects (ind : list (Z * Z)) (val : list V) (r c : Z)
    (ix : Z * Z) :
  0 <= r -> 0 <= c -> In ix ind -> ~ in_range r c ix ->
  sparse_coo_tensor ind val (r, c) = Raise RuntimeError.
Proof.
  intros Hr Hc Hin Hout. unfold sparse_coo_tensor; cbn [fst snd].
  destruct ((r <? 0) || (c <? 0)); [reflexivity|].
  destruct (negb _); [reflexivity|].
  destruct (forallb _ ind) eqn:Hall; [|reflexivity].
  exfalso. apply Hout.
  rewrite forallb_forall in Hall.
  apply index_ok_in_range; auto.
Qed.

(** C6: when [input_size_freq] equals [input_size] (a non-negative input
    width, a positive first hidden width), SparseInputNet is constructed
    without a rare branch, and its forward pass builds one sparse matrix of
    size [num_rows, input_splits[0]] from [x_ind] and [x_data] and returns
    [net_freq] applied to it; for coordinates inside that size the matrix is
    built with exactly the entries given. *)
Theorem SparseInputNet_without_rare_branch
    (conf : ModelConfig V) (g : Rng) (h0 : Z) (rest : list Z) :
  input_size_freq conf = input_size conf ->
  0 <= input_size conf ->
  hidden_sizes conf = h0 :: rest ->
  0 < h0 ->
  exists net g',
    SparseInputNet_init conf g = Ok (net, g') /\
    net_rare net = None /\
    input_splits net = [input_size conf; 0] /\
    has_shape (sl_weight (net_freq net))
      (Z.to_nat (input_size conf)) (Z.to_nat h0) /\
    (forall x_ind x_data num_rows,
        SparseInputNet_forward net x_ind x_data num_rows
        = let? X := sparse_coo_tensor x_ind x_data (num_rows, input_size conf) in
          SparseLinear_forward (net_freq net) X) /\
    (forall x_ind (x_data : list V) num_rows,
        0 <= num_rows -> length x_ind = length x_data ->
        Forall (in_range num_rows (input_size conf)) x_ind ->
        sparse_coo_tensor x_ind x_data (num_rows, input_size conf)
        = Ok (mkSparse x_ind x_data
                (Z.to_nat num_rows, Z.to_nat (input_size conf)))).
Proof.
  intros Hfreq Hsize Hhs Hh0.
  unfold SparseInputNet_init.
  rewrite Hfreq, Z.sub_diag, Hhs.
  unfold bindM at 1. rewrite py_index_pair_0. cbn [lift].
  unfold bindM at 1. rewrite py_index_head. cbn [lift].
  unfold bindM at 1.
  destruct (SparseLinear_init_ok (input_size conf) h0 true g Hsize Hh0)
    as (sl & g' & -> & Hshape & _).
  unfold bindM. rewrite py_index_pair_1. cbn [lift]. cbn [Z.eqb ret].
  eexists _, _. split; [reflexivity|].
  cbn [net_rare input_splits net_freq].
  split; [reflexivity|]. split; [reflexivity|]. split; [exact Hshape|].
  split.
  - intros x_ind x_data num_rows.
    unfold SparseInputNet_forward. cbn [input_splits net_freq].
    rewrite py_index_pair_1. cbn [bindR Z.eqb].
    rewrite py_index_pair_0. reflexivity.
  - intros x_ind x_data num_rows Hr Hlen Hall.
    apply sparse_coo_tensor_ok; assumption.
Qed.

End InputProps.

(** ** The frequent/rare split *)

Section SplitProps.
Context {V Rng : Type} `{Scalar V} `{Sampler V Rng}.

Lemma mask_select_filter {A} (p : A -> bool) (l : list A) :
  mask_select (map p l) l = Ok (List.filter p l).
Proof.
  induction l as [|x l IH]; simpl; [reflexivity|].
  rewrite IH; simpl. destruct (p x); reflexivity.
Qed.

(** Selecting the values with the mask computed from the coordinates keeps
    each value next to its coordinate. *)
Lemma mask_select_zip {A B} (p : A -> bool) (l : list A) (d : list B) :
  length l = length d ->
  exists d', mask_select (map p l) d = Ok d' /\
             length d' = length (List.filter p l) /\
             zip (List.filter p l) d' = List.filter (fun e => p e.1) (zip l d).
Proof.
  revert d; induction l as [|x l IH]; intros [|y d] Hlen; simpl in Hlen;
    try discriminate.
  - exists []. simpl. auto.
  - destruct (IH d) as (d' & Hd' & Hl & Hz); [congruence|].
    simpl. rewrite Hd'; simpl. destruct (p x); simpl.
    + exists (y :: d'). simpl. rewrite Hz, Hl. auto.
    + exists d'. auto.
Qed.

Lemma mask_select_length_mismatch {A} (mask : list bool) (l : list A) :
  length mask <> length l -> mask_select mask l = Raise IndexError.
Proof.
  revert l; induction mask as [|b mask IH]; intros [|x l] Hne; simpl in *;
    try reflexivity; try congruence.
  rewrite IH by congruence. reflexivity.
Qed.

Lemma filter_split_Permutation {A} (p : A -> bool) (l : list A) :
  Permutation (List.filter p l ++ List.filter (fun x => negb (p x)) l) l.
Proof.
  induction l as [|x l IH]; simpl; [constructor|].
  destruct (p x); simpl.
  - constructor. exact IH.
  - symmetry. apply Permutation_cons_app. symmetry. exact IH.
Qed.

Lemma map_negb_mask_freq (x_ind : list (Z * Z)) (s0 : Z) :
  map negb (mask_freq x_ind s0) = map (fun ix => negb (ix.2 <? s0)) x_ind.
Proof. unfold mask_freq. rewrite map_map. reflexivity. Qed.

(** X16: the split of lines 100-107 is exhaustive and disjoint: for a batch with
    one value per coordinate both selections succeed, [Xfreq] receives
    exactly the entries with column below [s0], [Xrare] exactly the others,
    and together they are the entries of the batch. *)
Lemma split_exhaustive_disjoint (x_ind : list (Z * Z)) (x_data : list V) (s0 : Z) :
  length x_ind = length x_data ->
  exists ind_f val_f ind_r val_r,
    Xfreq_entries x_ind x_data s0 = Ok (ind_f, val_f) /\
    Xrare_entries x_ind x_data s0 = Ok (ind_r, val_r) /\
    zip ind_f val_f = List.filter (fun e => e.1.2 <? s0) (zip x_ind x_data) /\
    zip ind_r val_r
      = List.filter (fun e => negb (e.1.2 <? s0)) (zip x_ind x_data) /\
    Permutation (zip ind_f val_f ++ zip ind_r val_r) (zip x_ind x_data) /\
    length ind_f = length val_f /\ length ind_r = length val_r.
Proof.
  intros Hlen. unfold Xfreq_entries, Xrare_entries.
  rewrite map_negb_mask_freq. unfold mask_freq.
  rewrite !mask_select_filter; cbn [bindR].
  destruct (mask_select_zip (fun ix : Z * Z => ix.2 <? s0) x_ind x_data Hlen)
    as (vf & -> & Hlf & Hzf).
  destruct (mask_select_zip (fun ix : Z * Z => negb (ix.2 <? s0)) x_ind x_data Hlen)
    as (vr & -> & Hlr & Hzr).
  cbn [bindR]. eexists _, _, _, _.
  split; [reflexivity|]. split; [reflexivity|].
  split; [exact Hzf|]. split; [exact Hzr|].
  split; [|split; congruence].
  rewrite Hzf, Hzr.
  apply (filter_split_Permutation (fun e : Z * Z * V => e.1.2 <? s0)).
Qed.

(** The coordinates [Xrare] is built from are the batch's own: the column
    of every one of them is at least [s0], it is not re-expressed relative
    to [s0]. *)
Lemma Xrare_columns_unshifted (x_ind : list (Z * Z)) (x_data : list V) (s0 : Z)
    (ind_r : list (Z * Z)) (val_r : list V) :
  Xrare_entries x_ind x_data s0 = Ok (ind_r, val_r) ->
  ind_r = List.filter (fun ix => negb (ix.2 <? s0)) x_ind /\
  Forall (fun ix => In ix x_ind /\ s0 <= ix.2) ind_r.
Proof.
  unfold Xrare_entries. rewrite map_negb_mask_freq.
  rewrite mask_select_filter; cbn [bindR].
  destruct (mask_select _ x_data) as [vr|e]; cbn [bindR]; [|discriminate].
  intros [= <- <-]. split; [reflexivity|].
  apply Forall_forall. intros ix Hin.
  apply list_elem_of_In, filter_In in Hin as [Hin Hp].
  split; [exact Hin|].
  apply negb_true_iff, Z.ltb_ge in Hp. exact Hp.
Qed.

End SplitProps.

(** ** Sequential modules and evaluation mode *)

Section ForwardProps.
Context {V Rng : Type} `{Scalar V} `{Sampler V Rng}.

Lemma Module_induction (P : Module V -> Prop) :
  (forall a, P (Activation a)) ->
  (forall p, P (Dropout p)) ->
  (forall l, P (Linear l)) ->
  (forall ms, Forall P ms -> P (Sequential ms)) ->
  forall m, P m.
Proof.
  intros Ha Hd Hl Hs. fix IH 1.
  intros [a|p|l|ms]; [apply Ha|apply Hd|apply Hl|].
  apply Hs. induction ms as [|m ms IHms]; constructor; [apply IH|exact IHms].
Qed.

Lemma forward_Sequential_nil (training : bool) (T : Tensor V) (g : Rng) :
  forward training (Sequential []) T g = Ok (T, g).
Proof. reflexivity. Qed.

Lemma forward_Sequential_cons (training : bool) (m : Module V)
    (ms : list (Module V)) (T : Tensor V) (g : Rng) :
  forward training (Sequential (m :: ms)) T g
  = bindM (forward training m T)
          (fun T' => forward training (Sequential ms) T') g.
Proof. reflexivity. Qed.

(** Outside training a module neither reads nor advances the generator:
    it returns one fixed result whatever the generator state, and leaves
    the state as it found it. *)
Lemma forward_eval_pure (m : Module V) :
  forall T : Tensor V,
    exists r : result (Tensor V), forall g : Rng, forward false m T g = lift r g.
Proof.
  induction m as [a|p|l|ms IH] using Module_induction; intros T.
  - eexists (Ok _). reflexivity.
  - exists (Ok T). reflexivity.
  - exists (nn_Linear_forward l T). reflexivity.
  - revert T. induction IH as [|m ms Hm _ IHms]; intros T.
    + exists (Ok T). reflexivity.
    + destruct (Hm T) as [[T'|e] Hr].
      * destruct (IHms T') as [r Hr'].
        exists r. intros g.
        rewrite forward_Sequential_cons. unfold bindM.
        rewrite Hr. cbn [lift]. apply Hr'.
      * exists (Raise e). intros g.
        rewrite forward_Sequential_cons. unfold bindM.
        rewrite Hr. reflexivity.
Qed.

Lemma value_of_lift {A} (r : result A) (g : Rng) : value_of (lift r g) = r.
Proof. destruct r; reflexivity. Qed.

End ForwardProps.

(** ** IntermediateNet *)

Section IntermediateProps.
Context {V Rng : Type} `{Scalar V} `{Sampler V Rng}.

Lemma py_range_nonpos (n : Z) : n <= 0 -> py_range n = [].
Proof.
  intros Hn. unfold py_range.
  replace (Z.to_nat n) with 0%nat by lia. reflexivity.
Qed.

Lemma py_range_pos (n : Z) : 0 < n -> exists l, py_range n = 0 :: l.
Proof.
  intros Hn. unfold py_range.
  destruct (Z.to_nat n) as [|k] eqn:E; [lia|].
  simpl. eexists. reflexivity.
Qed.

(** The first pass of the loop stops at [self.intermediate_net]: the only
    attribute assigned so far is [net]. *)
Lemma IntermediateNet_block_raises (conf : ModelConfig V) (net : Module V)
    (i : Z) (g : Rng) :
  IntermediateNet_block conf {[ "net" := AModule net ]} i g
  = Raise AttributeError.
Proof.
  unfold IntermediateNet_block, bindM, getattr.
  rewrite lookup_singleton_ne by discriminate. reflexivity.
Qed.

(** With two or more hidden sizes the loop body runs, and construction
    raises AttributeError. *)
Lemma IntermediateNet_init_raises (conf : ModelConfig V) (g : Rng) :
  (1 < length (hidden_sizes conf))%nat ->
  IntermediateNet_init conf g = Raise AttributeError.
Proof.
  intros Hlen. unfold IntermediateNet_init.
  destruct (py_range_pos (Z.of_nat (length (hidden_sizes conf)) - 1))
    as [l ->]; [lia|].
  cbn [for_each]. unfold bindM at 1. unfold bindM at 1.
  rewrite IntermediateNet_block_raises. reflexivity.
Qed.

(** With at most one hidden size the loop body never runs: the net is the
    empty [nn.Sequential()], and no random number is drawn. *)
Lemma IntermediateNet_init_empty (conf : ModelConfig V) (g : Rng) :
  (length (hidden_sizes conf) <= 1)%nat ->
  IntermediateNet_init conf g = Ok (mkIntermediateNet (Sequential []), g).
Proof.
  intros Hlen. unfold IntermediateNet_init.
  rewrite py_range_nonpos by lia. reflexivity.
Qed.

(** C7: when [hidden_sizes] has length exactly 1, IntermediateNet is built
    (as the empty sequence of blocks) and its forward pass returns every
    input tensor unchanged, in training and in evaluation mode, without
    touching the generator. *)
Theorem IntermediateNet_single_is_identity (conf : ModelConfig V) :
  length (hidden_sizes conf) = 1%nat ->
  forall g : Rng,
  exists net,
    IntermediateNet_init conf g = Ok (net, g) /\
    forall (training : bool) (Hin : Tensor V) (g' : Rng),
      IntermediateNet_forward training net Hin g' = Ok (Hin, g').
Proof.
  intros Hlen g. eexists. split.
  - apply IntermediateNet_init_empty. lia.
  - intros training Hin g'. reflexivity.
Qed.

End IntermediateProps.

(** ** SparseInputNet with a rare block *)

Section RareProps.
Context {V Rng : Type} `{Scalar V} `{Sampler V Rng}.

(** Whenever the rare width is not zero, construction of SparseInputNet
    does not return: once [net_freq] is built, [self.tail_hidden_size] is
    read from the module itself, which has no such attribute. *)
Lemma SparseInputNet_init_rare_raises (conf : ModelConfig V) (g : Rng) :
  input_size conf - input_size_freq conf <> 0 ->
  exists e, SparseInputNet_init conf g = Raise e /\
    (forall h0 rest, 0 <= input_size_freq conf ->
       hidden_sizes conf = h0 :: rest -> 0 < h0 -> e = AttributeError).
Proof.
  intros Hrare. unfold SparseInputNet_init.
  unfold bindM at 1. rewrite py_index_pair_0. cbn [lift].
  unfold bindM at 1.
  destruct (hidden_sizes conf) as [|h0 rest] eqn:Hhs.
  { rewrite py_index_nil. cbn [lift]. eexists. split; [reflexivity|].
    intros; discriminate. }
  rewrite py_index_head. cbn [lift].
  unfold bindM at 1.
  destruct (SparseLinear_init (input_size_freq conf) h0 true g)
    as [[sl g']|e] eqn:Hsl.
  - unfold bindM at 1. rewrite py_index_pair_1. cbn [lift].
    destruct (Z.eqb_spec (input_size conf - input_size_freq conf) 0) as [?|_];
      [contradiction|].
    unfold bindM at 1. cbn [lift].
    unfold bindM at 1. unfold getattr.
    rewrite lookup_insert_ne by discriminate.
    rewrite lookup_singleton_ne by discriminate.
    cbn [bindR lift]. eexists. split; [reflexivity|]. reflexivity.
  - eexists. split; [reflexivity|].
    intros h0' rest' Hf [= <- <-] Hh0.
    destruct (SparseLinear_init_ok (input_size_freq conf) h0 true g Hf Hh0)
      as (sl & g' & Hok & _).
    congruence.
Qed.

End RareProps.

(** ** SparseFFN *)

Section FFNProps.
Context {V Rng : Type} `{Scalar V} `{Sampler V Rng}.

(** The forward pass is the composition of the three stages (lines
    146-148). *)
Lemma SparseFFN_forward_composition (training : bool) (self : SparseFFN V)
    (x_ind : list (Z * Z)) (x_data : list V) (num_rows : Z) (g : Rng) :
  SparseFFN_forward training self x_ind x_data num_rows g
  = match SparseInputNet_forward (input_net self) x_ind x_data num_rows with
    | Ok Hin =>
        match IntermediateNet_forward training (ffn_net self).1 Hin g with
        | Ok (Hmid, g') => LastNet_forward training (ffn_net self).2 Hmid g'
        | Raise e => Raise e
        end
    | Raise e => Raise e
    end.
Proof.
  unfold SparseFFN_forward, bindM, lift.
  destruct (SparseInputNet_forward _ _ _ _); reflexivity.
Qed.

Lemma SparseFFN_forward_eval_pure (self : SparseFFN V)
    (x_ind : list (Z * Z)) (x_data : list V) (num_rows : Z) :
  exists r : result (Tensor V),
    forall g : Rng,
      SparseFFN_forward false self x_ind x_data num_rows g = lift r g.
Proof.
  destruct (SparseInputNet_forward (input_net self) x_ind x_data num_rows)
    as [Hin|e] eqn:Ein.
  - destruct (forward_eval_pure (inet_net (ffn_net self).1) Hin) as [[Hmid|e] Hmid_eq].
    + destruct (forward_eval_pure (lnet_net (ffn_net self).2) Hmid) as [r Hr].
      exists r. intros g. rewrite SparseFFN_forward_composition, Ein.
      unfold IntermediateNet_forward, LastNet_forward.
      rewrite Hmid_eq. cbn [lift]. apply Hr.
    + exists (Raise e). intros g. rewrite SparseFFN_forward_composition, Ein.
      unfold IntermediateNet_forward. rewrite Hmid_eq. reflexivity.
  - exists (Raise e). intros g.
    rewrite SparseFFN_forward_composition, Ein. reflexivity.
Qed.

(** C9: in evaluation mode, for any fixed model (any parameter values), two
    calls of the forward pass on the same [(x_ind, x_data, num_rows)] return
    the same output, whatever the state of the random generator at each
    call; the call leaves the generator state unchanged. *)
Theorem SparseFFN_forward_eval_deterministic (self : SparseFFN V)
    (x_ind : list (Z * Z)) (x_data : list V) (num_rows : Z) (g1 g2 : Rng) :
  value_of (SparseFFN_forward false self x_ind x_data num_rows g1)
  = value_of (SparseFFN_forward false self x_ind x_data num_rows g2) /\
  (forall out g', SparseFFN_forward false self x_ind x_data num_rows g1
                  = Ok (out, g') -> g' = g1).
Proof.
  destruct (SparseFFN_forward_eval_pure self x_ind x_data num_rows) as [r Hr].
  rewrite !Hr. split.
  - rewrite !value_of_lift. reflexivity.
  - intros out g'. destruct r; simpl; congruence.
Qed.

(** Construction reads seven fields of the configuration, and [mapping] is
    not one of them. *)
Lemma SparseFFN_init_fields_read (c1 c2 : ModelConfig V) (g : Rng) :
  input_size c1 = input_size c2 ->
  input_size_freq c1 = input_size_freq c2 ->
  hidden_sizes c1 = hidden_sizes c2 ->
  output_size c1 = output_size c2 ->
  hidden_dropout c1 = hidden_dropout c2 ->
  last_dropout c1 = last_dropout c2 ->
  last_non_linearity c1 = last_non_linearity c2 ->
  SparseFFN_init c1 g = SparseFFN_init c2 g.
Proof.
  intros E1 E2 E3 E4 E5 E6 E7.
  unfold SparseFFN_init, SparseInputNet_init, IntermediateNet_init,
    IntermediateNet_block, LastNet_init.
  rewrite E1, E2, E3, E4, E5, E6, E7. reflexivity.
Qed.

(** C10: two configurations built from arguments that differ only in
    [mapping] (each accepted by [ModelConfig]) give, from the same generator
    state, the same model with the same parameter values, hence the same
    result of the forward pass on every input: no component reads
    [mapping]. *)
Theorem mapping_has_no_effect (a1 a2 : ModelConfigArgs V)
    (c1 c2 : ModelConfig V) :
  same_except_mapping a1 a2 ->
  ModelConfig_init a1 = Ok c1 ->
  ModelConfig_init a2 = Ok c2 ->
  forall g : Rng,
    SparseFFN_init c1 g = SparseFFN_init c2 g /\
    forall training x_ind x_data num_rows,
      bindM (SparseFFN_init c1)
        (fun m => SparseFFN_forward training m x_ind x_data num_rows) g
      = bindM (SparseFFN_init c2)
          (fun m => SparseFFN_forward training m x_ind x_data num_rows) g.
Proof.
  intros (E1 & E2 & E3 & E4 & E5 & E6 & E7 & E8 & E9 & E10) H1 H2 g.
  apply ModelConfig_init_ok in H1, H2. subst c1 c2.
  assert (Hinit : forall g, SparseFFN_init (stored_config a1) g
                            = SparseFFN_init (stored_config a2) g).
  { intros g0. apply SparseFFN_init_fields_read; unfold stored_config; simpl;
      congruence. }
  split; [apply Hinit|].
  intros training x_ind x_data num_rows. unfold bindM. rewrite Hinit.
  reflexivity.
Qed.

End FFNProps.

(** ** Shapes *)

Section ShapeProps.
Context {V Rng : Type} `{Scalar V} `{Sampler V Rng}.

Lemma Forall_zip_fst {A B} (P : A -> Prop) (l : list A) (d : list B) :
  Forall P l -> Forall (fun e => P e.1) (zip l d).
Proof.
  intros Hall. revert d. induction Hall as [|x l Hx _ IH]; intros [|y d];
    simpl; constructor; auto.
Qed.

Lemma spmm_row_length (X : SparseTensor V) (W : Tensor V) (i k m : nat) :
  has_shape W k m ->
  Forall (fun ix => (Z.to_nat ix.2 < k)%nat) (sp_indices X) ->
  length (spmm_row X W i) = m.
Proof.
  intros (Hs & Hlen & Hrows) Hix. unfold spmm_row.
  rewrite Hs; cbn [snd].
  pose proof (Forall_zip_fst _ _ (sp_values X) Hix) as Hes.
  assert (Hacc : length (replicate m (fzero : V)) = m) by apply length_replicate.
  revert Hacc. generalize (replicate m (fzero : V)) as acc.
  induction Hes as [|e es He _ IH]; intros acc Hacc; simpl; [exact Hacc|].
  apply IH. destruct (e.1.1 =? Z.of_nat i); [|exact Hacc].
  destruct (lookup_lt_is_Some_2 (t_rows W) (Z.to_nat e.1.2)) as [row Hrow];
    [lia|].
  rewrite Hrow; simpl.
  unfold vadd, vscale. rewrite length_zip_with, length_map, Hacc.
  rewrite (Forall_lookup_1 _ _ _ _ Hrows Hrow). lia.
Qed.

Lemma torch_mm_shape (X : SparseTensor V) (W : Tensor V) (n k m : nat) :
  sp_size X = (n, k) ->
  has_shape W k m ->
  Forall (fun ix => (Z.to_nat ix.2 < k)%nat) (sp_indices X) ->
  exists T, torch_mm X W = Ok T /\ has_shape T n m.
Proof.
  intros HX HW Hix. unfold torch_mm.
  pose proof HW as (Hs & _ & _).
  rewrite HX, Hs; cbn [fst snd]. rewrite Nat.eqb_refl.
  eexists. split; [reflexivity|].
  unfold has_shape; cbn [t_shape t_rows].
  split; [reflexivity|]. split; [rewrite length_map, length_seq; reflexivity|].
  apply Forall_forall. intros row Hin.
  apply list_elem_of_In, in_map_iff in Hin as (i & <- & _).
  eapply spmm_row_length; eassumption.
Qed.

Lemma add_bias_shape (T : Tensor V) (b : list V) (n m : nat) :
  has_shape T n m -> length b = m ->
  exists T', add_bias T b = Ok T' /\ has_shape T' n m.
Proof.
  intros (Hs & Hlen & Hrows) Hb. unfold add_bias.
  rewrite Hs, Hb; cbn [snd]. rewrite Nat.eqb_refl.
  eexists. split; [reflexivity|].
  unfold has_shape; cbn [t_shape t_rows].
  split; [reflexivity|]. split; [rewrite length_map; exact Hlen|].
  apply Forall_forall. intros row Hin.
  apply list_elem_of_In, in_map_iff in Hin as (r & <- & Hr).
  unfold vadd. rewrite length_zip_with, Hb.
  rewrite Forall_forall in Hrows.
  rewrite (Hrows r) by (apply list_elem_of_In; exact Hr). lia.
Qed.

Lemma linear_mm_shape (T W : Tensor V) (n k m : nat) :
  has_shape T n k -> has_shape W m k ->
  exists T', linear_mm T W = Ok T' /\ has_shape T' n m.
Proof.
  intros (Hs & Hlen & Hrows) (HsW & HlenW & _). unfold linear_mm.
  rewrite Hs, HsW; cbn [fst snd]. rewrite Nat.eqb_refl.
  eexists. split; [reflexivity|].
  unfold has_shape; cbn [t_shape t_rows].
  split; [reflexivity|]. split; [rewrite length_map; exact Hlen|].
  apply Forall_forall. intros row Hin.
  apply list_elem_of_In, in_map_iff in Hin as (r & <- & Hr).
  rewrite length_map. exact HlenW.
Qed.

Lemma map_tensor_shape (f : V -> V) (T : Tensor V) (n m : nat) :
  has_shape T n m -> has_shape (map_tensor f T) n m.
Proof.
  intros (Hs & Hlen & Hrows).
  unfold has_shape, map_tensor; cbn [t_shape t_rows].
  split; [exact Hs|]. split; [rewrite length_map; exact Hlen|].
  apply Forall_forall. intros row Hin.
  apply list_elem_of_In, in_map_iff in Hin as (r & <- & Hr).
  rewrite length_map. rewrite Forall_forall in Hrows.
  apply Hrows, list_elem_of_In, Hr.
Qed.

Lemma dropout_list_length (p : V) (l : list V) (g : Rng) :
  length (dropout_list p l g).1 = length l.
Proof.
  revert g; induction l as [|x l IH]; intros g; simpl; [reflexivity|].
  destruct (dropout1 p x g) as [y g1]. specialize (IH g1).
  destruct (dropout_list p l g1) as [ys g2]. simpl in *. congruence.
Qed.

Lemma dropout_rows_shape (p : V) (rows : list (list V)) (g : Rng) (m : nat) :
  Forall (fun row => length row = m) rows ->
  length (dropout_rows p rows g).1 = length rows /\
  Forall (fun row => length row = m) (dropout_rows p rows g).1.
Proof.
  intros Hall. revert g.
  induction Hall as [|r rows Hr _ IH]; intros g; simpl;
    [split; [reflexivity|constructor]|].
  pose proof (dropout_list_length p r g) as Hl.
  destruct (dropout_list p r g) as [y g1]. specialize (IH g1).
  destruct (dropout_rows p rows g1) as [ys g2]. simpl in *.
  destruct IH as [IH1 IH2]. split; [congruence|].
  constructor; [congruence|assumption].
Qed.

Lemma F_dropout_shape (T : Tensor V) (p : V) (training : bool) (g : Rng)
    (n m : nat) :
  has_shape T n m ->
  exists T' g', F_dropout T p training g = Ok (T', g') /\ has_shape T' n m.
Proof.
  intros (Hs & Hlen & Hrows). unfold F_dropout.
  destruct training.
  - pose proof (dropout_rows_shape p (t_rows T) g m Hrows) as [H1 H2].
    destruct (dropout_rows p (t_rows T) g) as [rows g'].
    eexists _, _. split; [reflexivity|].
    unfold has_shape; cbn [t_shape t_rows]. simpl in *.
    split; [exact Hs|]. split; [congruence|assumption].
  - eexists _, _. split; [reflexivity|]. unfold has_shape; auto.
Qed.

Lemma nn_Linear_forward_shape (l : nn_Linear) (T : Tensor V) (n k m : nat) :
  has_shape T n k ->
  has_shape (lin_weight l) m k ->
  (forall bs, lin_bias l = Some bs -> length bs = m) ->
  exists T', nn_Linear_forward l T = Ok T' /\ has_shape T' n m.
Proof.
  intros HT HW Hb. unfold nn_Linear_forward.
  destruct (linear_mm_shape T (lin_weight l) n k m HT HW) as (T1 & -> & H1).
  cbn [bindR]. destruct (lin_bias l) as [bs|].
  - apply add_bias_shape; auto.
  - eauto.
Qed.

Lemma SparseLinear_forward_shape (sl : SparseLinear) (X : SparseTensor V)
    (n k m : nat) :
  sp_size X = (n, k) ->
  has_shape (sl_weight sl) k m ->
  (forall bs, sl_bias sl = Some bs -> length bs = m) ->
  Forall (fun ix => (Z.to_nat ix.2 < k)%nat) (sp_indices X) ->
  exists T, SparseLinear_forward sl X = Ok T /\ has_shape T n m.
Proof.
  intros HX HW Hb Hix. unfold SparseLinear_forward.
  destruct (torch_mm_shape X (sl_weight sl) n k m HX HW Hix) as (T1 & -> & H1).
  cbn [bindR]. destruct (sl_bias sl) as [bs|].
  - apply add_bias_shape; auto.
  - eauto.
Qed.

End ShapeProps.

(** ** What a successful construction looks like *)

Section BuiltProps.
Context {V Rng : Type} `{Scalar V} `{Sampler V Rng}.

Lemma SparseLinear_init_inv (i o : Z) (b : bool) (g g' : Rng) (sl : SparseLinear) :
  SparseLinear_init i o b g = Ok (sl, g') ->
  0 <= i /\ 0 < o /\
  has_shape (sl_weight sl) (Z.to_nat i) (Z.to_nat o) /\
  sl_bias sl = if b then Some (replicate (Z.to_nat o) fzero) else None.
Proof.
  intros Hok.
  destruct (Z.lt_ge_cases i 0) as [Hi|Hi].
  { unfold SparseLinear_init, bindM, torch_randn in Hok.
    rewrite fresh_tensor_negative in Hok by auto. discriminate. }
  destruct (Z.lt_trichotomy o 0) as [Ho|[->|Ho]].
  - unfold SparseLinear_init, bindM, torch_randn in Hok.
    rewrite fresh_tensor_negative in Hok by auto. discriminate.
  - rewrite SparseLinear_init_zero_width in Hok by assumption. discriminate.
  - destruct (SparseLinear_init_ok i o b g Hi Ho) as (sl0 & g0 & Hok0 & Hs & Hb).
    rewrite Hok0 in Hok. injection Hok as <- <-. auto.
Qed.

Lemma nn_Linear_init_inv (i o : Z) (b : bool) (g g' : Rng) (l : nn_Linear) :
  nn_Linear_init i o b g = Ok (l, g') ->
  has_shape (lin_weight l) (Z.to_nat o) (Z.to_nat i) /\
  (forall bs, lin_bias l = Some bs -> length bs = Z.to_nat o).
Proof.
  intros Hok.
  destruct (Z.lt_ge_cases i 0) as [Hi|Hi].
  { unfold nn_Linear_init, bindM in Hok.
    rewrite fresh_tensor_negative in Hok by auto. discriminate. }
  destruct (Z.lt_ge_cases o 0) as [Ho|Ho].
  { unfold nn_Linear_init, bindM in Hok.
    rewrite fresh_tensor_negative in Hok by auto. discriminate. }
  destruct (nn_Linear_init_ok i o b g Hi Ho) as (l0 & g0 & Hok0 & Hs & Hb).
  rewrite Hok0 in Hok. injection Hok as <- <-. split; [exact Hs|].
  intros bs Hbs. rewrite Hbs in Hb. tauto.
Qed.

Lemma SparseInputNet_init_inv (conf : ModelConfig V) (g g' : Rng)
    (net : SparseInputNet V) :
  SparseInputNet_init conf g = Ok (net, g') ->
  input_size_freq conf = input_size conf /\
  exists h0 rest sl,
    hidden_sizes conf = h0 :: rest /\
    0 <= input_size conf /\ 0 < h0 /\
    net = mkSparseInputNet [input_size conf; 0] sl None /\
    has_shape (sl_weight sl) (Z.to_nat (input_size conf)) (Z.to_nat h0) /\
    sl_bias sl = Some (replicate (Z.to_nat h0) fzero).
Proof.
  intros Hok.
  destruct (Z.eq_dec (input_size conf - input_size_freq conf) 0) as [Hz|Hnz].
  2:{ destruct (SparseInputNet_init_rare_raises conf g Hnz) as (e & He & _).
      congruence. }
  assert (Hfreq : input_size_freq conf = input_size conf) by lia.
  split; [exact Hfreq|].
  unfold SparseInputNet_init in Hok. rewrite Hz in Hok.
  unfold bindM at 1 in Hok. rewrite py_index_pair_0 in Hok. cbn [lift] in Hok.
  unfold bindM at 1 in Hok.
  destruct (hidden_sizes conf) as [|h0 rest] eqn:Hhs.
  { rewrite py_index_nil in Hok. discriminate. }
  rewrite py_index_head in Hok. cbn [lift] in Hok.
  unfold bindM at 1 in Hok.
  destruct (SparseLinear_init (input_size_freq conf) h0 true g)
    as [[sl g1]|e] eqn:Hsl; [|discriminate].
  apply SparseLinear_init_inv in Hsl as (Hi & Ho & Hs & Hb).
  unfold bindM at 1 in Hok. rewrite py_index_pair_1 in Hok.
  cbn [lift Z.eqb ret] in Hok. injection Hok as <- <-.
  rewrite Hfreq in *.
  exists h0, rest, sl. auto 10.
Qed.

Lemma LastNet_init_inv (conf : ModelConfig V) (g g' : Rng) (net : LastNet V) :
  LastNet_init conf g = Ok (net, g') ->
  exists act lin hlast,
    py_index (hidden_sizes conf) (-1) = Ok hlast /\
    lnet_net net = Sequential [Activation act; Dropout (last_dropout conf);
                               Linear lin] /\
    has_shape (lin_weight lin) (Z.to_nat (output_size conf)) (Z.to_nat hlast) /\
    (forall bs, lin_bias lin = Some bs ->
                length bs = Z.to_nat (output_size conf)).
Proof.
  unfold LastNet_init. intros Hok.
  unfold bindM at 1 in Hok.
  destruct (py_getitem non_linearities (last_non_linearity conf)) as [act|e];
    [|discriminate].
  cbn [lift] in Hok. unfold bindM at 1 in Hok. unfold nn_Dropout_init in Hok.
  destruct (flt (last_dropout conf) fzero || flt fone (last_dropout conf));
    [discriminate|].
  cbn [lift] in Hok. unfold bindM at 1 in Hok.
  destruct (py_index (hidden_sizes conf) (-1)) as [hlast|e]; [|discriminate].
  cbn [lift] in Hok. unfold bindM at 1 in Hok.
  destruct (nn_Linear_init hlast (output_size conf) true g) as [[lin g1]|e] eqn:Hlin;
    [|discriminate].
  cbn [ret] in Hok. injection Hok as <- <-.
  apply nn_Linear_init_inv in Hlin as [Hs Hb].
  exists act, lin, hlast. auto.
Qed.

(** Every model that [SparseFFN(conf)] returns has no rare branch and a
    single hidden layer. *)
Lemma SparseFFN_init_inv (conf : ModelConfig V) (g g' : Rng) (m : SparseFFN V) :
  SparseFFN_init conf g = Ok (m, g') ->
  input_size_freq conf = input_size conf /\
  exists h0 sl act lin,
    hidden_sizes conf = [h0] /\
    0 <= input_size conf /\ 0 < h0 /\
    input_net m = mkSparseInputNet [input_size conf; 0] sl None /\
    has_shape (sl_weight sl) (Z.to_nat (input_size conf)) (Z.to_nat h0) /\
    sl_bias sl = Some (replicate (Z.to_nat h0) fzero) /\
    inet_net (ffn_net m).1 = Sequential [] /\
    lnet_net (ffn_net m).2
      = Sequential [Activation act; Dropout (last_dropout conf); Linear lin] /\
    has_shape (lin_weight lin) (Z.to_nat (output_size conf)) (Z.to_nat h0) /\
    (forall bs, lin_bias lin = Some bs ->
                length bs = Z.to_nat (output_size conf)).
Proof.
  unfold SparseFFN_init. intros Hok.
  unfold bindM at 1 in Hok.
  destruct (SparseInputNet_init conf g) as [[inp g1]|e] eqn:Hinp; [|discriminate].
  unfold bindM at 1 in Hok.
  destruct (IntermediateNet_init conf g1) as [[inter g2]|e] eqn:Hinter;
    [|discriminate].
  unfold bindM at 1 in Hok.
  destruct (LastNet_init conf g2) as [[last g3]|e] eqn:Hlast; [|discriminate].
  cbn [ret] in Hok. injection Hok as <- <-.
  apply SparseInputNet_init_inv in Hinp
    as (Hfreq & h0 & rest & sl & Hhs & Hi & Ho & -> & Hs & Hb).
  assert (Hlen : (length (hidden_sizes conf) <= 1)%nat).
  { destruct (le_lt_dec (length (hidden_sizes conf)) 1) as [?|Hgt]; [assumption|].
    rewrite (IntermediateNet_init_raises conf g1 Hgt) in Hinter. discriminate. }
  rewrite (IntermediateNet_init_empty conf g1 Hlen) in Hinter.
  injection Hinter as <- <-.
  rewrite Hhs in Hlen. destruct rest; [|simpl in Hlen; lia].
  apply LastNet_init_inv in Hlast as (act & lin & hlast & Hidx & Hnet & HsL & HbL).
  rewrite Hhs, py_index_last_single in Hidx. injection Hidx as <-.
  split; [exact Hfreq|]. exists h0, sl, act, lin.
  cbn [input_net ffn_net fst snd inet_net]. auto 12.
Qed.

(** X18: for every model that construction returns, the forward pass on a
    well-formed batch (any number of entries, none included) returns a
    tensor of shape [num_rows, output_size], in training and in evaluation
    mode. *)
Lemma SparseFFN_forward_shape (conf : ModelConfig V) (g g' : Rng)
    (m : SparseFFN V) (x_ind : list (Z * Z)) (x_data : list V) (num_rows : Z) :
  SparseFFN_init conf g = Ok (m, g') ->
  0 <= num_rows ->
  length x_ind = length x_data ->
  Forall (in_range num_rows (input_size conf)) x_ind ->
  forall (training : bool) (g1 : Rng),
  exists out g2,
    SparseFFN_forward training m x_ind x_data num_rows g1 = Ok (out, g2) /\
    has_shape out (Z.to_nat num_rows) (Z.to_nat (output_size conf)).
Proof.
  intros Hinit Hr Hlen Hall training g1.
  apply SparseFFN_init_inv in Hinit
    as (Hfreq & h0 & sl & act & lin & Hhs & Hi & Ho & Hinp & Hs & Hb
        & Hinter & Hlast & HsL & HbL).
  rewrite SparseFFN_forward_composition.
  unfold SparseInputNet_forward. rewrite Hinp. cbn [input_splits net_freq].
  rewrite py_index_pair_1. cbn [bindR Z.eqb]. rewrite py_index_pair_0.
  cbn [bindR].
  rewrite (sparse_coo_tensor_ok x_ind x_data num_rows (input_size conf))
    by assumption.
  cbn [bindR].
  destruct (SparseLinear_forward_shape sl
              (mkSparse x_ind x_data (Z.to_nat num_rows, Z.to_nat (input_size conf)))
              (Z.to_nat num_rows) (Z.to_nat (input_size conf)) (Z.to_nat h0))
    as (Hin & -> & HHin); [reflexivity|exact Hs| | |].
  { intros bs Hbs. rewrite Hb in Hbs. injection Hbs as <-.
    apply length_replicate. }
  { cbn [sp_indices]. eapply Forall_impl; [exact Hall|].
    intros ix [_ Hc]. simpl. lia. }
  unfold IntermediateNet_forward, LastNet_forward.
  rewrite Hinter, Hlast. cbn [forward]. unfold bindM, ret.
  destruct (F_dropout_shape (map_tensor (activation_fn act) Hin)
              (last_dropout conf) training g1 (Z.to_nat num_rows) (Z.to_nat h0))
    as (Hd & g2 & -> & HHd); [apply map_tensor_shape; exact HHin|].
  destruct (nn_Linear_forward_shape lin Hd (Z.to_nat num_rows) (Z.to_nat h0)
              (Z.to_nat (output_size conf)) HHd HsL HbL) as (out & -> & Hout).
  cbn [lift].
  eexists _, _. split; [reflexivity|exact Hout].
Qed.

End BuiltProps.

(** ** The forward pass with a rare block *)

Section RareForwardProps.
Context {V Rng : Type} `{Scalar V} `{Sampler V Rng}.

Lemma Xfreq_entries_ok (x_ind : list (Z * Z)) (x_data : list V) (s0 : Z) :
  length x_ind = length x_data ->
  exists val_f,
    Xfreq_entries x_ind x_data s0
    = Ok (List.filter (fun ix => ix.2 <? s0) x_ind, val_f) /\
    length val_f = length (List.filter (fun ix : Z * Z => ix.2 <? s0) x_ind).
Proof.
  intros Hlen. unfold Xfreq_entries, mask_freq.
  rewrite mask_select_filter; cbn [bindR].
  destruct (mask_select_zip (fun ix : Z * Z => ix.2 <? s0) x_ind x_data Hlen)
    as (vf & -> & Hlf & _).
  cbn [bindR]. eauto.
Qed.

Lemma Xrare_entries_ok (x_ind : list (Z * Z)) (x_data : list V) (s0 : Z) :
  length x_ind = length x_data ->
  exists val_r,
    Xrare_entries x_ind x_data s0
    = Ok (List.filter (fun ix => negb (ix.2 <? s0)) x_ind, val_r) /\
    length val_r
    = length (List.filter (fun ix : Z * Z => negb (ix.2 <? s0)) x_ind).
Proof.
  intros Hlen. unfold Xrare_entries. rewrite map_negb_mask_freq.
  rewrite mask_select_filter; cbn [bindR].
  destruct (mask_select_zip (fun ix : Z * Z => negb (ix.2 <? s0)) x_ind x_data Hlen)
    as (vr & -> & Hlr & _).
  cbn [bindR]. eauto.
Qed.

(** X17: with a rare block of width [s1], a well-formed batch for the
    [s0 + s1] input columns that holds one entry in a column at or beyond
    both [s0] and [s1] makes the forward pass raise: [Xrare] is declared
    with [s1] columns and is handed that column as it is. *)
Lemma SparseInputNet_forward_rare_raises (self : SparseInputNet V)
    (s0 s1 : Z) (x_ind : list (Z * Z)) (x_data : list V) (num_rows : Z)
    (ix : Z * Z) :
  input_splits self = [s0; s1] ->
  0 <= s0 -> 0 < s1 -> 0 <= num_rows ->
  length x_ind = length x_data ->
  Forall (in_range num_rows (s0 + s1)) x_ind ->
  In ix x_ind -> s0 <= ix.2 -> s1 <= ix.2 ->
  SparseInputNet_forward self x_ind x_data num_rows = Raise RuntimeError.
Proof.
  intros Hsplits Hs0 Hs1 Hr Hlen Hall Hin Hge0 Hge1.
  unfold SparseInputNet_forward. rewrite Hsplits.
  rewrite py_index_pair_1; cbn [bindR].
  destruct (Z.eqb_spec s1 0) as [?|_]; [lia|].
  rewrite py_index_pair_0; cbn [bindR].
  destruct (Xfreq_entries_ok x_ind x_data s0 Hlen) as (vf & -> & Hlf).
  cbn [bindR].
  rewrite sparse_coo_tensor_ok; [|assumption..| |].
  2:{ symmetry; exact Hlf. }
  2:{ apply Forall_forall. intros jx Hjx.
      apply list_elem_of_In, filter_In in Hjx as [Hjx Hp].
      apply Z.ltb_lt in Hp.
      rewrite Forall_forall in Hall.
      destruct (Hall jx) as [Hrow Hcol]; [apply list_elem_of_In; exact Hjx|].
      split; [exact Hrow|lia]. }
  cbn [bindR].
  destruct (Xrare_entries_ok x_ind x_data s0 Hlen) as (vr & -> & Hlr).
  cbn [bindR].
  rewrite (sparse_coo_tensor_rejects _ _ num_rows s1 ix); [reflexivity|lia..| |].
  - apply filter_In. split; [exact Hin|].
    apply negb_true_iff, Z.ltb_ge. exact Hge0.
  - intros [_ Hc]. lia.
Qed.

End RareForwardProps.

(** * The code on concrete inputs *)

Module Examples.
Import ZBackend.

(** C5 at a mapping of length 9 for [input_size = 10]: construction fails. *)
Lemma ModelConfig_init_fails_iff_witness :
  (a_non_linearity args_mapping9 = "relu" \/
   a_non_linearity args_mapping9 = "tanh") /\
  (a_last_non_linearity args_mapping9 = "relu" \/
   a_last_non_linearity args_mapping9 = "tanh") /\
  (is_ok (ModelConfig_init args_mapping9) = false <->
   mapping_mismatch args_mapping9 \/ freq_too_large args_mapping9) /\
  ModelConfig_init args_mapping9 = Raise AssertionError.
Proof.
  split; [left; reflexivity|]. split; [left; reflexivity|].
  split.
  - apply (ModelConfig_init_fails_iff args_mapping9); left; reflexivity.
  - reflexivity.
Defined.

(** C6 at [input_size = input_size_freq = 10], [hidden_sizes = [8]]. *)
Lemma SparseInputNet_without_rare_branch_witness :
  input_size_freq (stored_config args_plain)
  = input_size (stored_config args_plain) /\
  0 <= input_size (stored_config args_plain) /\
  hidden_sizes (stored_config args_plain) = [8] /\
  0 < 8 /\
  exists net g',
    SparseInputNet_init (stored_config args_plain) 0 = Ok (net, g') /\
    net_rare net = None /\
    forall x_ind x_data num_rows,
      SparseInputNet_forward net x_ind x_data num_rows
      = let? X := sparse_coo_tensor x_ind x_data (num_rows, 10) in
        SparseLinear_forward (net_freq net) X.
Proof.
  split; [reflexivity|]. split; [simpl; lia|]. split; [reflexivity|].
  split; [lia|].
  destruct (SparseInputNet_without_rare_branch (stored_config args_plain) 0 8 [])
    as (net & g' & Hinit & Hrare & _ & _ & Hfwd & _);
    [reflexivity|simpl; lia|reflexivity|lia|].
  exists net, g'. split; [exact Hinit|]. split; [exact Hrare|exact Hfwd].
Defined.

(** C7 at [hidden_sizes = [8]]. *)
Lemma IntermediateNet_single_is_identity_witness :
  length (hidden_sizes (stored_config args_plain)) = 1%nat /\
  exists net,
    IntermediateNet_init (stored_config args_plain) 0 = Ok (net, 0) /\
    IntermediateNet_forward true net (const_tensor 3 8 5) 7
    = Ok (const_tensor 3 8 5, 7).
Proof.
  split; [reflexivity|].
  destruct (IntermediateNet_single_is_identity (stored_config args_plain)
              eq_refl 0) as (net & Hinit & Hfwd).
  exists net. split; [exact Hinit|apply Hfwd].
Defined.

(** C10 at a configuration with and without a mapping. *)
Lemma mapping_has_no_effect_witness :
  same_except_mapping args_plain args_mapped /\
  ModelConfig_init args_plain = Ok (stored_config args_plain) /\
  ModelConfig_init args_mapped = Ok (stored_config args_mapped) /\
  mapping (stored_config args_plain) <> mapping (stored_config args_mapped) /\
  SparseFFN_init (stored_config args_plain) 0
  = SparseFFN_init (stored_config args_mapped) 0.
Proof.
  assert (Hsame : same_except_mapping args_plain args_mapped)
    by (repeat split; reflexivity).
  split; [exact Hsame|]. split; [reflexivity|]. split; [reflexivity|].
  split; [discriminate|].
  apply (mapping_has_no_effect args_plain args_mapped _ _ Hsame eq_refl eq_refl 0).
Defined.

(** In training mode the output does depend on the generator state: the
    statement of C9 is about evaluation mode only. *)
Example SparseFFN_forward_training_depends_on_generator :
  exists m g',
    SparseFFN_init (stored_config args_plain) 0 = Ok (m, g') /\
    value_of (SparseFFN_forward true m batch_ind batch_data batch_rows 0)
    <> value_of (SparseFFN_forward true m batch_ind batch_data batch_rows 1) /\
    value_of (SparseFFN_forward false m batch_ind batch_data batch_rows 0)
    = value_of (SparseFFN_forward false m batch_ind batch_data batch_rows 1).
Proof.
  destruct (SparseFFN_init (stored_config args_plain) 0) as [[m g']|e] eqn:E;
    [|vm_compute in E; discriminate].
  exists m, g'. split; [reflexivity|].
  vm_compute in E. injection E as <- <-.
  split; [vm_compute; discriminate|vm_compute; reflexivity].
Qed.

(** C1 on the batch with columns 2, 5, 7, 9 and splits [6, 4]: the entries
    are split exhaustively and disjointly and [Xfreq] keeps its columns, but
    [Xrare] is handed columns 7 and 9 as they are, not 1 and 3; the
    [num_rows x 4] sparse matrix cannot be built from them and the forward
    pass raises, whereas the columns shifted down by 6 would be accepted. *)
Theorem Xrare_columns_not_shifted :
  Xfreq_entries batch_ind batch_data 6 = Ok ([(0, 2); (1, 5)], [1; 2]) /\
  Xrare_entries batch_ind batch_data 6 = Ok ([(2, 7); (0, 9)], [3; 4]) /\
  sparse_coo_tensor [(2, 7); (0, 9)] [3; 4] (batch_rows, 4)
  = Raise RuntimeError /\
  is_ok (sparse_coo_tensor [(2, 1); (0, 3)] [3; 4] (batch_rows, 4)) = true /\
  SparseInputNet_forward net_split batch_ind batch_data batch_rows
  = Raise RuntimeError.
Proof. repeat split; vm_compute; reflexivity. Qed.

(** C2 on [input_size = 10], [input_size_freq = 6], [tail_hidden_size = 4]:
    the configuration is accepted, and construction of SparseInputNet raises
    AttributeError from every generator state: no rare branch is built. *)
Theorem SparseInputNet_init_split_raises :
  ModelConfig_init args_split = Ok (stored_config args_split) /\
  tail_hidden_size (stored_config args_split) = Some 4 /\
  forall g : Z,
    SparseInputNet_init (stored_config args_split) g = Raise AttributeError.
Proof.
  split; [reflexivity|]. split; [reflexivity|]. intros g.
  destruct (SparseInputNet_init_rare_raises (stored_config args_split) g)
    as (e & -> & He); [vm_compute; discriminate|].
  f_equal. apply (He 8 []); [vm_compute; discriminate|reflexivity|lia].
Qed.

(** C3 on [hidden_sizes = [8; 4]]: the configuration is accepted, and
    construction of IntermediateNet raises AttributeError from every
    generator state: no block is appended. *)
Theorem IntermediateNet_init_deep_raises :
  ModelConfig_init args_deep = Ok (stored_config args_deep) /\
  forall g : Z,
    IntermediateNet_init (stored_config args_deep) g = Raise AttributeError.
Proof.
  split; [reflexivity|]. intros g.
  apply IntermediateNet_init_raises. simpl. lia.
Qed.

(** C4 on [last_non_linearity = "sigmoid"]: the name is not in the
    registry, the configuration is accepted all the same, and the name is
    rejected only when LastNet looks it up (KeyError); an unknown
    [non_linearity] is rejected by the configuration itself. *)
Theorem ModelConfig_init_accepts_unknown_last_non_linearity :
  py_in_keys "sigmoid" non_linearities = false /\
  ModelConfig_init args_sigmoid = Ok (stored_config args_sigmoid) /\
  last_non_linearity (stored_config args_sigmoid) = "sigmoid" /\
  (forall g : Z, LastNet_init (stored_config args_sigmoid) g = Raise KeyError) /\
  ModelConfig_init
    (mkArgs 10 [8] 2 None 0 0 0 None None "sigmoid" "relu")
  = Raise AssertionError.
Proof.
  split; [reflexivity|]. split; [reflexivity|]. split; [reflexivity|].
  split; [|reflexivity].
  intros g. reflexivity.
Qed.

(** C8 on two valid configurations: with [hidden_sizes = [8; 4]]
    construction of SparseFFN raises, from every generator state, so there
    is no model to run; with a rare block ([input_size_freq = 6] of 10)
    construction raises as well, and the forward pass of SparseInputNet on
    the well-formed batch raises rather than return a tensor. *)
Theorem SparseFFN_no_output_for_valid_configs :
  ModelConfig_init args_deep = Ok (stored_config args_deep) /\
  (forall g : Z, is_ok (SparseFFN_init (stored_config args_deep) g) = false) /\
  SparseFFN_init (stored_config args_deep) 0 = Raise AttributeError /\
  ModelConfig_init args_split = Ok (stored_config args_split) /\
  (forall g : Z, is_ok (SparseFFN_init (stored_config args_split) g) = false) /\
  Forall (in_range batch_rows 10) batch_ind /\
  SparseInputNet_forward net_split batch_ind batch_data batch_rows
  = Raise RuntimeError.
Proof.
  split; [reflexivity|]. split.
  { intros g.
    destruct (SparseFFN_init (stored_config args_deep) g) as [[m g']|e] eqn:E;
      [|reflexivity].
    apply SparseFFN_init_inv in E as (_ & h0 & sl & act & lin & Hhs & _).
    discriminate. }
  split; [vm_compute; reflexivity|]. split; [reflexivity|]. split.
  { intros g.
    destruct (SparseFFN_init (stored_config args_split) g) as [[m g']|e] eqn:E;
      [|reflexivity].
    apply SparseFFN_init_inv in E as (Hfreq & _). discriminate. }
  split; [|vm_compute; reflexivity].
  unfold batch_ind, batch_rows, in_range.
  repeat constructor; simpl; lia.
Qed.

End Examples.

(** * Further properties of the layers *)

(** ** SparseLinear *)

Section SparseLinearMore.
Context {V Rng : Type} `{Scalar V} `{Sampler V Rng}.

(** X1: [SparseLinear(in_features, out_features, bias)] is built exactly
    when [in_features >= 0] and [out_features > 0]. A negative size is the
    backend's RuntimeError, a zero [out_features] (with [in_features >= 0])
    is the ZeroDivisionError of [1. / math.sqrt(0)] in [reset_parameters];
    a layer that is built has a well-formed weight of shape
    [in_features, out_features] and a bias of [out_features] zeros, or no
    bias when [bias] is false. *)
Theorem SparseLinear_init_outcome (i o : Z) (b : bool) (g : Rng) :
  (is_ok (SparseLinear_init i o b g) = true <-> 0 <= i /\ 0 < o) /\
  (i < 0 \/ o < 0 -> SparseLinear_init i o b g = Raise RuntimeError) /\
  (0 <= i -> o = 0 -> SparseLinear_init i o b g = Raise ZeroDivisionError) /\
  (forall sl g', SparseLinear_init i o b g = Ok (sl, g') ->
     has_shape (sl_weight sl) (Z.to_nat i) (Z.to_nat o) /\
     sl_bias sl = if b then Some (replicate (Z.to_nat o) fzero) else None).
Proof.
  split; [|split; [|split]].
  - split.
    + destruct (SparseLinear_init i o b g) as [[sl g']|e] eqn:E; [|discriminate].
      intros _. apply SparseLinear_init_inv in E. tauto.
    + intros [Hi Ho].
      destruct (SparseLinear_init_ok i o b g Hi Ho) as (sl & g' & -> & _).
      reflexivity.
  - intros Hneg. unfold SparseLinear_init, bindM, torch_randn.
    rewrite fresh_tensor_negative by exact Hneg. reflexivity.
  - intros Hi ->. apply SparseLinear_init_zero_width. exact Hi.
  - intros sl g' E. apply SparseLinear_init_inv in E. tauto.
Qed.

(** X2: [reset_parameters] fails, with ZeroDivisionError, exactly when the
    weight has no column; otherwise it returns a layer whose weight is a
    well-formed matrix of the same shape, and whose bias is kept when
    present, with every entry set to zero, and stays absent otherwise. *)
Theorem reset_parameters_outcome (self : SparseLinear) (g : Rng) :
  ((t_shape (sl_weight self)).2 = 0%nat ->
     reset_parameters self g = Raise ZeroDivisionError) /\
  ((t_shape (sl_weight self)).2 <> 0%nat ->
     exists self' g',
       reset_parameters self g = Ok (self', g') /\
       has_shape (sl_weight self')
         (t_shape (sl_weight self)).1 (t_shape (sl_weight self)).2 /\
       sl_bias self'
       = option_map (fun bs => replicate (length bs) fzero) (sl_bias self)).
Proof.
  unfold reset_parameters. split.
  - intros ->. reflexivity.
  - intros Hnz.
    destruct (Nat.eqb_spec (t_shape (sl_weight self)).2 0) as [?|_];
      [contradiction|].
    unfold bindM.
    match goal with |- context [uniform_ ?lo ?hi ?T g] =>
      destruct (uniform_ok lo hi T g) as (T' & g' & -> & Hs) end.
    eexists _, _. split; [reflexivity|]. cbn [sl_weight sl_bias].
    split; [exact Hs|].
    destruct (sl_bias self) as [bs|]; cbn [option_map]; [|reflexivity].
    f_equal. induction bs as [|x bs IH]; simpl; [reflexivity|].
    rewrite IH. reflexivity.
Qed.

Lemma sparse_coo_tensor_inv (ind : list (Z * Z)) (val : list V) (n k : Z)
    (X : SparseTensor V) :
  sparse_coo_tensor ind val (n, k) = Ok X ->
  0 <= n /\ 0 <= k /\ length ind = length val /\
  Forall (in_range n k) ind /\
  X = mkSparse ind val (Z.to_nat n, Z.to_nat k).
Proof.
  unfold sparse_coo_tensor; cbn [fst snd].
  destruct ((n <? 0) || (k <? 0)) eqn:Hneg; [discriminate|].
  apply orb_false_iff in Hneg as [Hn Hk].
  apply Z.ltb_ge in Hn, Hk.
  destruct (Nat.eqb_spec (length ind) (length val)) as [Hlen|?];
    cbn [negb]; [|discriminate].
  destruct (forallb _ ind) eqn:Hall; [|discriminate].
  intros [= <-]. repeat split; try assumption.
  apply Forall_forall. intros ix Hix.
  rewrite forallb_forall in Hall.
  apply index_ok_in_range; [assumption..|].
  apply Hall, list_elem_of_In, Hix.
Qed.

(** X3: the forward pass of a SparseLinear whose parameters have the shapes
    of a [k -> m] layer, on a sparse matrix that [sparse_coo_tensor] built
    with [n] rows and [k] columns, returns a well-formed dense [n x m]
    matrix, whatever the number of entries; on a sparse matrix whose column
    count differs from the rows of the weight it raises RuntimeError. *)
Theorem SparseLinear_forward_outcome (self : SparseLinear)
    (ind : list (Z * Z)) (val : list V) (n k : Z) (X : SparseTensor V)
    (m : nat) :
  sparse_coo_tensor ind val (n, k) = Ok X ->
  (SparseLinear_shaped self (Z.to_nat k) m ->
     exists T, SparseLinear_forward self X = Ok T /\
               has_shape T (Z.to_nat n) m) /\
  ((t_shape (sl_weight self)).1 <> Z.to_nat k ->
     SparseLinear_forward self X = Raise RuntimeError).
Proof.
  intros HX. apply sparse_coo_tensor_inv in HX as (Hn & Hk & Hlen & Hall & ->).
  split.
  - intros [HW Hb].
    apply (SparseLinear_forward_shape self _ (Z.to_nat n) (Z.to_nat k) m);
      [reflexivity|exact HW|exact Hb|].
    cbn [sp_indices]. eapply Forall_impl; [exact Hall|].
    intros ix [_ Hc]. simpl. lia.
  - intros Hne. unfold SparseLinear_forward, torch_mm. cbn [sp_size snd].
    destruct (Nat.eqb_spec (Z.to_nat k) (t_shape (sl_weight self)).1) as [E|_];
      [congruence|reflexivity].
Qed.

(** X4: on a batch without any entry the forward pass of a [k -> m]
    SparseLinear is defined, and every one of the [n] output rows is the
    bias added to a row of zeros (a row of zeros when there is no bias). *)
Theorem SparseLinear_forward_empty (self : SparseLinear) (n k : Z) (m : nat) :
  0 <= n -> 0 <= k ->
  SparseLinear_shaped self (Z.to_nat k) m ->
  exists X,
    sparse_coo_tensor [] [] (n, k) = Ok X /\
    SparseLinear_forward self X
    = Ok (mkTensor (Z.to_nat n, m)
            (replicate (Z.to_nat n)
               (match sl_bias self with
                | Some bs => vadd (replicate m fzero) bs
                | None => replicate m fzero
                end))).
Proof.
  intros Hn Hk [(Hs & _ & _) Hb].
  rewrite (sparse_coo_tensor_ok [] [] n k) by (auto; constructor).
  eexists. split; [reflexivity|].
  unfold SparseLinear_forward, torch_mm. cbn [sp_size fst snd].
  rewrite Hs. cbn [fst snd]. rewrite Nat.eqb_refl. cbn [bindR].
  assert (Hrows : map (spmm_row (mkSparse [] [] (Z.to_nat n, Z.to_nat k))
                         (sl_weight self)) (seq 0 (Z.to_nat n))
                  = replicate (Z.to_nat n) (replicate m fzero)).
  { unfold spmm_row. cbn [sp_indices sp_values zip zip_with foldl].
    rewrite Hs. cbn [snd].
    generalize 0%nat. induction (Z.to_nat n) as [|j IH]; intros start; simpl;
      [reflexivity|]. rewrite IH. reflexivity. }
  rewrite Hrows.
  destruct (sl_bias self) as [bs|] eqn:Ebs; [|reflexivity].
  unfold add_bias. cbn [t_shape t_rows snd].
  rewrite (Hb bs eq_refl), Nat.eqb_refl. f_equal. f_equal.
  clear Hrows. induction (Z.to_nat n) as [|j IH]; simpl; [reflexivity|].
  rewrite IH. reflexivity.
Qed.

Lemma pretty_to_nat (z : Z) : 0 <= z -> pretty (Z.to_nat z) = pretty z.
Proof.
  intros Hz. unfold pretty at 1, pretty_nat.
  rewrite Z_nat_N.
  destruct z as [|p|p]; [reflexivity|reflexivity|lia].
Qed.

(** X5: [extra_repr] of a freshly built [SparseLinear(i, o, bias)] names the
    constructor's arguments: it is the text
    [in_features=i, out_features=o, bias=True] (or [bias=False]) with [i]
    and [o] in decimal. *)
Theorem extra_repr_constructed (i o : Z) (b : bool) (g g' : Rng)
    (self : SparseLinear) :
  SparseLinear_init i o b g = Ok (self, g') ->
  extra_repr self
  = "in_features=" +:+ pretty i +:+ ", out_features=" +:+ pretty o +:+
    ", bias=" +:+ py_str_bool b.
Proof.
  intros E. apply SparseLinear_init_inv in E as (Hi & Ho & (Hs & _) & Hb).
  unfold extra_repr. rewrite Hs, Hb. cbn [fst snd].
  rewrite !pretty_to_nat by lia.
  destruct b; reflexivity.
Qed.

End SparseLinearMore.

(** ** ModelConfig and IntermediateNet *)

Section ConfigMore.
Context {V Rng : Type} `{Scalar V} `{Sampler V Rng}.

(** X6: every configuration that [ModelConfig] returns holds the arguments
    as given, with [input_size_freq <= input_size] (so the rare width
    [input_size - input_size_freq] is never negative), a mapping, when
    there is one, of exactly [input_size] entries, and [non_linearity] one
    of [relu] and [tanh]. *)
Theorem ModelConfig_init_invariants (a : ModelConfigArgs V)
    (conf : ModelConfig V) :
  ModelConfig_init a = Ok conf ->
  conf = stored_config a /\
  input_size_freq conf <= input_size conf /\
  (forall m, mapping conf = Some m -> Z.of_nat (length m) = input_size conf) /\
  (non_linearity conf = "relu" \/ non_linearity conf = "tanh").
Proof.
  intros Hok. pose proof (ModelConfig_init_ok a conf Hok) as ->.
  split; [reflexivity|].
  unfold ModelConfig_init in Hok. unfold stored_config; simpl.
  destruct (py_in_keys (a_non_linearity a) non_linearities) eqn:Hnl;
    simpl in Hok; [|discriminate].
  apply non_linearities_keys in Hnl.
  assert (Hmap : forall m, a_mapping a = Some m ->
                           Z.of_nat (length m) = a_input_size a).
  { intros m Hm. rewrite Hm in Hok. simpl in Hok.
    destruct (Z.eqb_spec (a_input_size a) (Z.of_nat (length m))) as [E|_];
      [congruence|discriminate]. }
  split; [|split; [exact Hmap|exact Hnl]].
  destruct (a_mapping a) as [m|]; simpl in Hok.
  - destruct (a_input_size a =? Z.of_nat (length m)); simpl in Hok;
      [|discriminate].
    destruct (a_input_size_freq a) as [f|]; simpl in *; [|lia].
    destruct (Z.leb_spec f (a_input_size a)); [assumption|discriminate].
  - destruct (a_input_size_freq a) as [f|]; simpl in *; [|lia].
    destruct (Z.leb_spec f (a_input_size a)); [assumption|discriminate].
Qed.

(** X7: whether [ModelConfig] accepts its arguments depends on four of
    them only: [non_linearity], [input_size], the length of [mapping] (or
    its absence) and [input_size_freq]. The hidden sizes, the output size,
    the dropout probabilities, the weight decay, [tail_hidden_size] and
    [last_non_linearity] are stored without any check. *)
Theorem ModelConfig_init_checks_four_arguments (a1 a2 : ModelConfigArgs V) :
  a_non_linearity a1 = a_non_linearity a2 ->
  a_input_size a1 = a_input_size a2 ->
  option_map length (a_mapping a1) = option_map length (a_mapping a2) ->
  a_input_size_freq a1 = a_input_size_freq a2 ->
  is_ok (ModelConfig_init a1) = is_ok (ModelConfig_init a2).
Proof.
  intros Hnl Hsize Hmap Hfreq. unfold ModelConfig_init.
  rewrite Hnl, Hsize, Hfreq.
  destruct (py_in_keys _ _); simpl; [|reflexivity].
  destruct (a_mapping a1) as [m1|], (a_mapping a2) as [m2|];
    simpl in Hmap; try discriminate.
  - injection Hmap as ->. simpl.
    destruct (a_input_size a2 =? Z.of_nat (length m2)); simpl; [|reflexivity].
    destruct (a_input_size_freq a2) as [f|]; simpl; [|reflexivity].
    destruct (f <=? a_input_size a2); reflexivity.
  - simpl. destruct (a_input_size_freq a2) as [f|]; simpl; [|reflexivity].
    destruct (f <=? a_input_size a2); reflexivity.
Qed.

(** X8: construction of IntermediateNet has two outcomes only, decided by
    the number of hidden sizes: with none or one it returns the empty
    sequence of blocks and leaves the generator untouched, with more it
    raises AttributeError. Neither [hidden_dropout] nor [non_linearity]
    nor any size has an influence: an invalid dropout probability is never
    reported. *)
Theorem IntermediateNet_init_outcome (conf : ModelConfig V) (g : Rng) :
  IntermediateNet_init conf g
  = if (length (hidden_sizes conf) <=? 1)%nat
    then Ok (mkIntermediateNet (Sequential []), g)
    else Raise AttributeError.
Proof.
  destruct (Nat.leb_spec (length (hidden_sizes conf)) 1) as [Hle|Hgt].
  - apply IntermediateNet_init_empty. exact Hle.
  - apply IntermediateNet_init_raises. exact Hgt.
Qed.

End ConfigMore.

(** ** LastNet *)

Section LastNetMore.
Context {V Rng : Type} `{Scalar V} `{Sampler V Rng}.

Lemma py_index_last {A} (l : list A) (x : A) : py_index (l ++ [x]) (-1) = Ok x.
Proof.
  unfold py_index. rewrite length_app. cbn [length].
  replace (-1 <? 0) with true by reflexivity.
  replace (-1 + Z.of_nat (length l + 1)) with (Z.of_nat (length l)) by lia.
  assert ((0 <=? Z.of_nat (length l)) = true) as -> by (apply Z.leb_le; lia).
  assert ((Z.of_nat (length l) <? Z.of_nat (length l + 1)) = true) as ->
    by (apply Z.ltb_lt; lia).
  cbn [andb]. rewrite Nat2Z.id.
  rewrite list_lookup_middle by reflexivity. reflexivity.
Qed.

Lemma py_getitem_in_keys {A} (d : gmap string A) (k : string) :
  py_in_keys k d = true -> exists v, py_getitem d k = Ok v.
Proof.
  unfold py_in_keys, py_getitem. rewrite bool_decide_eq_true.
  intros [v ->]. eauto.
Qed.

Lemma py_getitem_not_in_keys {A} (d : gmap string A) (k : string) :
  py_in_keys k d = false -> py_getitem d k = Raise KeyError.
Proof.
  unfold py_in_keys, py_getitem. rewrite bool_decide_eq_false.
  destruct (d !! k) as [v|]; [|reflexivity].
  intros Hn. exfalso. apply Hn. eauto.
Qed.

Lemma nn_Dropout_init_valid (p : V) :
  nn_Dropout_init p
  = if valid_dropout p then Ok (Dropout p) else Raise ValueError.
Proof.
  unfold nn_Dropout_init, valid_dropout.
  destruct (flt p fzero || flt fone p); reflexivity.
Qed.

(** X9: construction of LastNet checks, in this order, the activation
    name, the dropout probability, the hidden sizes and the two widths of
    the linear layer: an unknown [last_non_linearity] raises KeyError
    whatever the rest; then a [last_dropout] outside [0, 1] raises
    ValueError; then an empty [hidden_sizes] raises IndexError; then a
    negative last hidden size or output size raises RuntimeError.
    Otherwise the net is the activation registered under the name, a
    dropout with [last_dropout], and a linear layer with bias from the
    last hidden size to [output_size]. *)
Theorem LastNet_init_outcome (conf : ModelConfig V) (g : Rng) :
  (py_in_keys (last_non_linearity conf) non_linearities = false ->
     LastNet_init conf g = Raise KeyError) /\
  (py_in_keys (last_non_linearity conf) non_linearities = true ->
     valid_dropout (last_dropout conf) = false ->
     LastNet_init conf g = Raise ValueError) /\
  (py_in_keys (last_non_linearity conf) non_linearities = true ->
     valid_dropout (last_dropout conf) = true ->
     hidden_sizes conf = [] ->
     LastNet_init conf g = Raise IndexError) /\
  (forall l h,
     py_in_keys (last_non_linearity conf) non_linearities = true ->
     valid_dropout (last_dropout conf) = true ->
     hidden_sizes conf = l ++ [h] ->
     (h < 0 \/ output_size conf < 0 ->
        LastNet_init conf g = Raise RuntimeError) /\
     (0 <= h -> 0 <= output_size conf ->
        exists act lin bs g',
          LastNet_init conf g
          = Ok (mkLastNet (Sequential [Activation act;
                                       Dropout (last_dropout conf);
                                       Linear lin]), g') /\
          non_linearities !! last_non_linearity conf = Some act /\
          lin_bias lin = Some bs /\
          nn_Linear_shaped lin (Z.to_nat h) (Z.to_nat (output_size conf)))).
Proof.
  unfold LastNet_init. split; [|split; [|split]].
  - intros Hk. unfold bindM at 1.
    rewrite py_getitem_not_in_keys by exact Hk. reflexivity.
  - intros Hk Hp. unfold bindM at 1.
    destruct (py_getitem_in_keys _ _ Hk) as [act ->]. cbn [lift].
    unfold bindM at 1. rewrite nn_Dropout_init_valid, Hp. reflexivity.
  - intros Hk Hp Hhs. unfold bindM at 1.
    destruct (py_getitem_in_keys _ _ Hk) as [act ->]. cbn [lift].
    unfold bindM at 1. rewrite nn_Dropout_init_valid, Hp. cbn [lift].
    unfold bindM at 1. rewrite Hhs, py_index_nil. reflexivity.
  - intros l h Hk Hp Hhs.
    destruct (py_getitem_in_keys _ _ Hk) as [act Hact].
    assert (Hlook : non_linearities !! last_non_linearity conf = Some act).
    { unfold py_getitem in Hact.
      destruct (non_linearities !! last_non_linearity conf); congruence. }
    rewrite Hact, nn_Dropout_init_valid, Hp, Hhs, py_index_last.
    unfold bindM. cbn [lift].
    split.
    + intros Hneg. unfold nn_Linear_init, bindM.
      rewrite fresh_tensor_negative by tauto. reflexivity.
    + intros Hh Ho.
      destruct (nn_Linear_init_ok h (output_size conf) true g Hh Ho)
        as (lin & g' & -> & Hs & Hb).
      destruct (lin_bias lin) as [bs|] eqn:Ebs; [|discriminate].
      exists act, lin, bs, g'. split; [reflexivity|].
      split; [exact Hlook|]. split; [exact Ebs|].
      split; [exact Hs|]. intros bs' E. rewrite Ebs in E.
      injection E as <-. tauto.
Qed.

(** X10: for a LastNet that construction returned, with last hidden size
    [h]: on a well-formed input of [n] rows and [h] columns the forward
    pass returns a well-formed [n x output_size] tensor, in training and in
    evaluation mode, and in evaluation mode leaves the generator as it
    was; on an input whose column count is not [h] it raises
    RuntimeError. *)
Theorem LastNet_forward_outcome (conf : ModelConfig V) (g g' : Rng)
    (net : LastNet V) (h : Z) (T : Tensor V) (n : nat) :
  LastNet_init conf g = Ok (net, g') ->
  py_index (hidden_sizes conf) (-1) = Ok h ->
  (has_shape T n (Z.to_nat h) ->
     forall (training : bool) (g1 : Rng),
     exists out g2,
       LastNet_forward training net T g1 = Ok (out, g2) /\
       has_shape out n (Z.to_nat (output_size conf)) /\
       (training = false -> g2 = g1)) /\
  ((t_shape T).2 <> Z.to_nat h ->
     forall (training : bool) (g1 : Rng),
       value_of (LastNet_forward training net T g1) = Raise RuntimeError).
Proof.
  intros Hinit Hidx.
  apply LastNet_init_inv in Hinit as (act & lin & h' & Hidx' & Hnet & HsL & HbL).
  rewrite Hidx in Hidx'. injection Hidx' as <-.
  unfold LastNet_forward. rewrite Hnet. split.
  - intros HT training g1. cbn [forward]. unfold bindM, ret.
    destruct (F_dropout_shape (map_tensor (activation_fn act) T)
                (last_dropout conf) training g1 n (Z.to_nat h))
      as (Hd & g2 & Hdrop & HHd); [apply map_tensor_shape; exact HT|].
    rewrite Hdrop.
    destruct (nn_Linear_forward_shape lin Hd n (Z.to_nat h)
                (Z.to_nat (output_size conf)) HHd HsL HbL) as (out & -> & Hout).
    cbn [lift]. exists out, g2. split; [reflexivity|]. split; [exact Hout|].
    intros ->. unfold F_dropout, ret in Hdrop. congruence.
  - intros Hne training g1. cbn [forward]. unfold bindM, ret.
    assert (Hdrop : exists Hd g2,
               F_dropout (map_tensor (activation_fn act) T)
                 (last_dropout conf) training g1 = Ok (Hd, g2) /\
               t_shape Hd = t_shape T).
    { unfold F_dropout. destruct training.
      - destruct (dropout_rows _ _ g1) as [rows g2].
        eexists _, _. split; reflexivity.
      - eexists _, _. split; reflexivity. }
    destruct Hdrop as (Hd & g2 & -> & Hshape).
    unfold nn_Linear_forward, linear_mm. rewrite Hshape.
    destruct HsL as (HsW & _). rewrite HsW. cbn [snd].
    destruct (Nat.eqb_spec (t_shape T).2 (Z.to_nat h)) as [E|_];
      [contradiction|reflexivity].
Qed.

End LastNetMore.

(** ** SparseInputNet, all outcomes *)

Section InputMore.
Context {V Rng : Type} `{Scalar V} `{Sampler V Rng}.

(** X11: construction of SparseInputNet goes through these steps in
    order. An empty [hidden_sizes] raises IndexError. The frequent layer
    [SparseLinear(input_size_freq, hidden_sizes[0])] is built next: a
    negative size raises RuntimeError, a zero [hidden_sizes[0]] raises
    ZeroDivisionError. Only then is the rare width looked at: when it is
    not zero construction raises AttributeError, and when it is zero the
    result has splits [[input_size_freq, 0]], the frequent layer with its
    zero bias, and no rare branch. *)
Theorem SparseInputNet_init_outcome (conf : ModelConfig V) (g : Rng) :
  (hidden_sizes conf = [] ->
     SparseInputNet_init conf g = Raise IndexError) /\
  (forall h0 rest, hidden_sizes conf = h0 :: rest ->
     (input_size_freq conf < 0 \/ h0 < 0 ->
        SparseInputNet_init conf g = Raise RuntimeError) /\
     (0 <= input_size_freq conf -> h0 = 0 ->
        SparseInputNet_init conf g = Raise ZeroDivisionError) /\
     (0 <= input_size_freq conf -> 0 < h0 ->
        input_size conf <> input_size_freq conf ->
        SparseInputNet_init conf g = Raise AttributeError) /\
     (0 <= input_size_freq conf -> 0 < h0 ->
        input_size conf = input_size_freq conf ->
        exists sl g',
          SparseInputNet_init conf g
          = Ok (mkSparseInputNet [input_size_freq conf; 0] sl None, g') /\
          has_shape (sl_weight sl)
            (Z.to_nat (input_size_freq conf)) (Z.to_nat h0) /\
          sl_bias sl = Some (replicate (Z.to_nat h0) fzero))).
Proof.
  split.
  - intros Hhs. unfold SparseInputNet_init.
    unfold bindM at 1. rewrite py_index_pair_0. cbn [lift].
    unfold bindM at 1. rewrite Hhs, py_index_nil. reflexivity.
  - intros h0 rest Hhs.
    assert (Hstep : SparseInputNet_init conf g
              = match SparseLinear_init (input_size_freq conf) h0 true g with
                | Ok (sl, g') =>
                    if input_size conf - input_size_freq conf =? 0
                    then Ok (mkSparseInputNet
                               [input_size_freq conf;
                                input_size conf - input_size_freq conf]
                               sl None, g')
                    else Raise AttributeError
                | Raise e => Raise e
                end).
    { unfold SparseInputNet_init.
      unfold bindM at 1. rewrite py_index_pair_0. cbn [lift].
      unfold bindM at 1. rewrite Hhs, py_index_head. cbn [lift].
      unfold bindM at 1.
      destruct (SparseLinear_init (input_size_freq conf) h0 true g)
        as [[sl g']|e]; [|reflexivity].
      unfold bindM at 1. rewrite py_index_pair_1. cbn [lift].
      destruct (input_size conf - input_size_freq conf =? 0); [reflexivity|].
      unfold bindM at 1. cbn [lift]. unfold bindM at 1. unfold getattr.
      rewrite lookup_insert_ne by discriminate.
      rewrite lookup_singleton_ne by discriminate.
      reflexivity. }
    rewrite Hstep. split; [|split; [|split]].
    + intros Hneg. unfold SparseLinear_init, bindM, torch_randn.
      rewrite fresh_tensor_negative by exact Hneg. reflexivity.
    + intros Hf ->. rewrite SparseLinear_init_zero_width by exact Hf.
      reflexivity.
    + intros Hf Hh Hne.
      destruct (SparseLinear_init_ok (input_size_freq conf) h0 true g Hf Hh)
        as (sl & g' & -> & _).
      destruct (Z.eqb_spec (input_size conf - input_size_freq conf) 0);
        [lia|reflexivity].
    + intros Hf Hh Heq.
      destruct (SparseLinear_init_ok (input_size_freq conf) h0 true g Hf Hh)
        as (sl & g' & -> & Hs & Hb).
      rewrite Heq, Z.sub_diag. cbn [Z.eqb]. eauto.
Qed.

(** X12: a batch with more coordinates than values, or fewer, never
    reaches a layer. Without rare branch it is [sparse_coo_tensor] that
    rejects it (RuntimeError); with a rare branch the boolean mask computed
    from the coordinates does not fit [x_data], and indexing [x_data] with
    it raises IndexError before any sparse matrix is built. *)
Theorem SparseInputNet_forward_length_mismatch (self : SparseInputNet V)
    (s0 s1 : Z) (x_ind : list (Z * Z)) (x_data : list V) (num_rows : Z) :
  input_splits self = [s0; s1] ->
  length x_ind <> length x_data ->
  SparseInputNet_forward self x_ind x_data num_rows
  = Raise (if s1 =? 0 then RuntimeError else IndexError).
Proof.
  intros Hsplits Hlen. unfold SparseInputNet_forward. rewrite Hsplits.
  rewrite py_index_pair_1; cbn [bindR].
  destruct (s1 =? 0).
  - rewrite py_index_pair_0; cbn [bindR].
    unfold sparse_coo_tensor; cbn [fst snd].
    destruct ((num_rows <? 0) || (s0 <? 0)); [reflexivity|].
    destruct (Nat.eqb_spec (length x_ind) (length x_data)); [contradiction|].
    reflexivity.
  - rewrite py_index_pair_0; cbn [bindR].
    unfold Xfreq_entries, mask_freq.
    rewrite mask_select_filter; cbn [bindR].
    rewrite mask_select_length_mismatch by (rewrite length_map; exact Hlen).
    reflexivity.
Qed.

Lemma tensor_add_shape (T1 T2 : Tensor V) (n m : nat) :
  has_shape T1 n m -> has_shape T2 n m ->
  exists T, tensor_add T1 T2 = Ok T /\ has_shape T n m.
Proof.
  intros (Hs1 & Hl1 & Hr1) (Hs2 & Hl2 & Hr2). unfold tensor_add.
  rewrite Hs1, Hs2. rewrite bool_decide_eq_true_2 by reflexivity.
  eexists. split; [reflexivity|].
  unfold has_shape; cbn [t_shape t_rows].
  split; [reflexivity|]. split; [rewrite length_zip_with; lia|].
  revert Hr1 Hr2. clear. generalize (t_rows T2) as rows2.
  induction (t_rows T1) as [|r1 rows1 IH]; intros [|r2 rows2] H1 H2;
    simpl; try constructor.
  - unfold vadd. rewrite length_zip_with.
    inversion H1; inversion H2; subst. lia.
  - inversion H1; inversion H2; subst. eapply IH; eassumption.
Qed.

(** X13: with a rare branch whose layers have the shapes lines 86-92 name
    (frequent [s0 -> h], rare [s1 -> t] then [t -> h] without bias), the
    forward pass on a well-formed batch returns a well-formed
    [num_rows x h] tensor provided every column at or beyond [s0] is below
    [s1]; in particular on a batch that touches frequent columns only, or
    that has no entry at all. *)
Theorem SparseInputNet_forward_rare_accepts (self : SparseInputNet V)
    (s0 s1 : Z) (h t : nat) (l1 : SparseLinear) (l2 : nn_Linear)
    (x_ind : list (Z * Z)) (x_data : list V) (num_rows : Z) :
  input_splits self = [s0; s1] ->
  0 <= s0 -> 0 < s1 -> 0 <= num_rows ->
  SparseLinear_shaped (net_freq self) (Z.to_nat s0) h ->
  net_rare self = Some (l1, l2) ->
  SparseLinear_shaped l1 (Z.to_nat s1) t ->
  nn_Linear_shaped l2 t h ->
  length x_ind = length x_data ->
  Forall (in_range num_rows (s0 + s1)) x_ind ->
  Forall (fun ix => s0 <= ix.2 -> ix.2 < s1) x_ind ->
  exists out,
    SparseInputNet_forward self x_ind x_data num_rows = Ok out /\
    has_shape out (Z.to_nat num_rows) h.
Proof.
  intros Hsplits Hs0 Hs1 Hr [HWf Hbf] Hrare [HW1 Hb1] [HW2 Hb2] Hlen Hall Hlow.
  unfold SparseInputNet_forward. rewrite Hsplits.
  rewrite py_index_pair_1; cbn [bindR].
  destruct (Z.eqb_spec s1 0) as [?|_]; [lia|].
  rewrite py_index_pair_0; cbn [bindR].
  destruct (Xfreq_entries_ok x_ind x_data s0 Hlen) as (vf & -> & Hlf).
  cbn [bindR].
  rewrite Forall_forall in Hall. rewrite Forall_forall in Hlow.
  assert (Hfreq_range : Forall (in_range num_rows s0)
                          (List.filter (fun ix : Z * Z => ix.2 <? s0) x_ind)).
  { apply Forall_forall. intros jx Hjx.
    apply list_elem_of_In, filter_In in Hjx as [Hjx Hp].
    apply Z.ltb_lt in Hp.
    destruct (Hall jx) as [Hrow Hcol]; [apply list_elem_of_In; exact Hjx|].
    split; [exact Hrow|lia]. }
  assert (Hrare_range : Forall (in_range num_rows s1)
                          (List.filter (fun ix : Z * Z => negb (ix.2 <? s0)) x_ind)).
  { apply Forall_forall. intros jx Hjx.
    apply list_elem_of_In, filter_In in Hjx as [Hjx Hp].
    apply negb_true_iff, Z.ltb_ge in Hp.
    destruct (Hall jx) as [Hrow Hcol]; [apply list_elem_of_In; exact Hjx|].
    split; [exact Hrow|].
    split; [lia|]. apply Hlow; [apply list_elem_of_In; exact Hjx|exact Hp]. }
  rewrite (sparse_coo_tensor_ok _ vf num_rows s0 Hr Hs0 (eq_sym Hlf) Hfreq_range).
  cbn [bindR].
  destruct (Xrare_entries_ok x_ind x_data s0 Hlen) as (vr & -> & Hlr).
  cbn [bindR].
  rewrite (sparse_coo_tensor_ok _ vr num_rows s1 Hr (Z.lt_le_incl _ _ Hs1)
             (eq_sym Hlr) Hrare_range).
  cbn [bindR].
  destruct (SparseLinear_forward_shape (net_freq self)
              (mkSparse (List.filter (fun ix : Z * Z => ix.2 <? s0) x_ind) vf
                 (Z.to_nat num_rows, Z.to_nat s0))
              (Z.to_nat num_rows) (Z.to_nat s0) h)
    as (Hf & -> & HHf); [reflexivity|exact HWf|exact Hbf| |].
  { cbn [sp_indices]. eapply Forall_impl; [exact Hfreq_range|].
    intros ix [_ Hc]. simpl. lia. }
  cbn [bindR]. rewrite Hrare. cbn [net_rare_forward].
  destruct (SparseLinear_forward_shape l1
              (mkSparse (List.filter (fun ix : Z * Z => negb (ix.2 <? s0)) x_ind) vr
                 (Z.to_nat num_rows, Z.to_nat s1))
              (Z.to_nat num_rows) (Z.to_nat s1) t)
    as (H1 & -> & HH1); [reflexivity|exact HW1|exact Hb1| |].
  { cbn [sp_indices]. eapply Forall_impl; [exact Hrare_range|].
    intros ix [_ Hc]. simpl. lia. }
  cbn [bindR].
  destruct (nn_Linear_forward_shape l2 H1 (Z.to_nat num_rows) t h HH1 HW2 Hb2)
    as (H2 & -> & HH2).
  cbn [bindR]. apply tensor_add_shape; assumption.
Qed.

End InputMore.

(** ** SparseFFN, what can be built and what it computes *)

Section FFNMore.
Context {V Rng : Type} `{Scalar V} `{Sampler V Rng}.

Lemma nn_Linear_init_sizes (i o : Z) (b : bool) (g g' : Rng) (l : nn_Linear) :
  nn_Linear_init i o b g = Ok (l, g') -> 0 <= i /\ 0 <= o.
Proof.
  intros Hok.
  destruct (Z.lt_ge_cases i 0) as [Hi|Hi].
  { unfold nn_Linear_init, bindM in Hok.
    rewrite fresh_tensor_negative in Hok by auto. discriminate. }
  destruct (Z.lt_ge_cases o 0) as [Ho|Ho]; [|auto].
  unfold nn_Linear_init, bindM in Hok.
  rewrite fresh_tensor_negative in Hok by auto. discriminate.
Qed.

Lemma LastNet_init_conditions (conf : ModelConfig V) (g g' : Rng)
    (net : LastNet V) :
  LastNet_init conf g = Ok (net, g') ->
  py_in_keys (last_non_linearity conf) non_linearities = true /\
  valid_dropout (last_dropout conf) = true /\
  exists act lin hlast,
    py_index (hidden_sizes conf) (-1) = Ok hlast /\
    0 <= hlast /\ 0 <= output_size conf /\
    non_linearities !! last_non_linearity conf = Some act /\
    net = mkLastNet (Sequential [Activation act; Dropout (last_dropout conf);
                                 Linear lin]) /\
    nn_Linear_shaped lin (Z.to_nat hlast) (Z.to_nat (output_size conf)).
Proof.
  unfold LastNet_init. intros Hok.
  destruct (py_in_keys (last_non_linearity conf) non_linearities) eqn:Hk.
  2:{ unfold bindM at 1 in Hok.
      rewrite py_getitem_not_in_keys in Hok by exact Hk. discriminate. }
  destruct (py_getitem_in_keys _ _ Hk) as [act Hact].
  assert (Hlook : non_linearities !! last_non_linearity conf = Some act).
  { unfold py_getitem in Hact.
    destruct (non_linearities !! last_non_linearity conf); congruence. }
  rewrite Hact, nn_Dropout_init_valid in Hok.
  unfold bindM at 1 in Hok. cbn [lift] in Hok. unfold bindM at 1 in Hok.
  destruct (valid_dropout (last_dropout conf)); [|discriminate].
  cbn [lift] in Hok. unfold bindM at 1 in Hok.
  destruct (py_index (hidden_sizes conf) (-1)) as [hlast|e]; [|discriminate].
  cbn [lift] in Hok. unfold bindM at 1 in Hok.
  destruct (nn_Linear_init hlast (output_size conf) true g) as [[lin g1]|e] eqn:Hlin;
    [|discriminate].
  cbn [ret] in Hok. injection Hok as <- <-.
  pose proof (nn_Linear_init_sizes _ _ _ _ _ _ Hlin) as [Hh Ho].
  apply nn_Linear_init_inv in Hlin as [Hs Hb].
  split; [reflexivity|]. split; [reflexivity|].
  exists act, lin, hlast.
  split; [reflexivity|]. split; [exact Hh|]. split; [exact Ho|].
  split; [exact Hlook|]. split; [reflexivity|]. split; [exact Hs|exact Hb].
Qed.

Lemma SparseInputNet_init_plain (conf : ModelConfig V) (g : Rng) (h0 : Z)
    (rest : list Z) :
  input_size_freq conf = input_size conf ->
  0 <= input_size conf ->
  hidden_sizes conf = h0 :: rest ->
  0 < h0 ->
  exists sl g',
    SparseInputNet_init conf g
    = Ok (mkSparseInputNet [input_size conf; 0] sl None, g').
Proof.
  intros Hfreq Hsize Hhs Hh0. unfold SparseInputNet_init.
  rewrite Hfreq, Z.sub_diag, Hhs.
  unfold bindM at 1. rewrite py_index_pair_0. cbn [lift].
  unfold bindM at 1. rewrite py_index_head. cbn [lift].
  unfold bindM at 1.
  destruct (SparseLinear_init_ok (input_size conf) h0 true g Hsize Hh0)
    as (sl & g' & -> & _).
  unfold bindM. rewrite py_index_pair_1. cbn [lift]. cbn [Z.eqb ret].
  eauto.
Qed.

(** X14: [SparseFFN(conf)] returns a model exactly for the configurations
    with no rare split ([input_size_freq = input_size]), a non-negative
    input size, exactly one hidden size, positive, a non-negative output
    size, a [last_non_linearity] among the registered names and a
    [last_dropout] that [nn.Dropout] accepts; for every other
    configuration construction raises. *)
Theorem SparseFFN_init_succeeds_iff (conf : ModelConfig V) (g : Rng) :
  is_ok (SparseFFN_init conf g) = true <-> buildable conf.
Proof.
  unfold buildable. split.
  - destruct (SparseFFN_init conf g) as [[m g']|e] eqn:E; [|discriminate].
    intros _. pose proof E as Einv.
    apply SparseFFN_init_inv in Einv
      as (Hfreq & h0 & sl & act & lin & Hhs & Hi & Ho & _).
    unfold SparseFFN_init in E. unfold bindM at 1 in E.
    destruct (SparseInputNet_init conf g) as [[inp g1]|e]; [|discriminate].
    unfold bindM at 1 in E.
    destruct (IntermediateNet_init conf g1) as [[inter g2]|e]; [|discriminate].
    unfold bindM at 1 in E.
    destruct (LastNet_init conf g2) as [[last g3]|e] eqn:Hlast; [|discriminate].
    apply LastNet_init_conditions in Hlast
      as (Hk & Hp & _ & _ & hlast & _ & _ & Hout & _).
    split; [exact Hfreq|]. split; [exact Hi|].
    split; [exists h0; auto|]. auto.
  - intros (Hfreq & Hi & (h0 & Hhs & Ho) & Hout & Hk & Hp).
    unfold SparseFFN_init. unfold bindM at 1.
    destruct (SparseInputNet_init_plain conf g h0 [] Hfreq Hi Hhs Ho)
      as (sl & g1 & ->).
    unfold bindM at 1.
    rewrite IntermediateNet_init_empty by (rewrite Hhs; simpl; lia).
    unfold bindM at 1. unfold LastNet_init.
    destruct (py_getitem_in_keys _ _ Hk) as [act ->].
    rewrite nn_Dropout_init_valid, Hp, Hhs, py_index_last_single.
    unfold bindM. cbn [lift].
    destruct (nn_Linear_init_ok h0 (output_size conf) true g1)
      as (lin & g2 & -> & _); [lia|exact Hout|].
    reflexivity.
Qed.


End FFNMore.

(** * The further properties on concrete inputs *)

Module MoreExamples.
Import ZBackend.

(** The shape of a layer given by its tensors. *)
Ltac prove_shaped :=
  split;
  [ unfold has_shape; simpl; repeat split; repeat constructor
  | intros bs E; first [discriminate E | injection E as <-; reflexivity] ].

Lemma layer_6_8_shaped : SparseLinear_shaped layer_6_8 6 8.
Proof. prove_shaped. Defined.

Lemma batch_ind_in_range : Forall (in_range batch_rows 10) batch_ind.
Proof.
  unfold batch_ind, batch_rows, in_range. repeat constructor; simpl; lia.
Defined.

(** X2 at the layer from 6 columns to 8 features. *)
Lemma reset_parameters_outcome_witness :
  (t_shape (sl_weight layer_6_8)).2 <> 0%nat /\
  exists self' g',
    reset_parameters layer_6_8 0 = Ok (self', g') /\
    has_shape (sl_weight self') 6 8 /\
    sl_bias self' = Some (replicate 8 0).
Proof.
  split; [discriminate|].
  destruct (proj2 (reset_parameters_outcome layer_6_8 0))
    as (self' & g' & E & Hs & Hb); [discriminate|].
  exists self', g'. split; [exact E|]. split; [exact Hs|exact Hb].
Defined.

(** X3 on the two frequent entries, three rows, six columns. *)
Lemma SparseLinear_forward_outcome_witness :
  sparse_coo_tensor batch_freq_ind batch_freq_data (3, 6)
  = Ok (mkSparse batch_freq_ind batch_freq_data (3%nat, 6%nat)) /\
  SparseLinear_shaped layer_6_8 6 8 /\
  exists T,
    SparseLinear_forward layer_6_8
      (mkSparse batch_freq_ind batch_freq_data (3%nat, 6%nat)) = Ok T /\
    has_shape T 3 8.
Proof.
  split; [reflexivity|]. split; [exact layer_6_8_shaped|].
  exact (proj1 (SparseLinear_forward_outcome layer_6_8 batch_freq_ind
                  batch_freq_data 3 6 _ 8 eq_refl) layer_6_8_shaped).
Defined.

(** X4 for three rows: every output row is the bias. *)
Lemma SparseLinear_forward_empty_witness :
  0 <= 3 /\ 0 <= 6 /\ SparseLinear_shaped layer_6_8 6 8 /\
  exists X,
    sparse_coo_tensor [] [] (3, 6) = Ok X /\
    SparseLinear_forward layer_6_8 X
    = Ok (mkTensor (3%nat, 8%nat) (replicate 3 (replicate 8 2))).
Proof.
  split; [lia|]. split; [lia|]. split; [exact layer_6_8_shaped|].
  destruct (SparseLinear_forward_empty layer_6_8 3 6 8) as (X & HX & Hfwd);
    [lia|lia|exact layer_6_8_shaped|].
  exists X. split; [exact HX|exact Hfwd].
Defined.

(** X5 for [SparseLinear(6, 8)]. *)
Lemma extra_repr_constructed_witness :
  exists self g',
    SparseLinear_init 6 8 true 0 = Ok (self, g') /\
    extra_repr self = "in_features=6, out_features=8, bias=True".
Proof.
  destruct (SparseLinear_init 6 8 true 0) as [[self g']|e] eqn:E;
    [|vm_compute in E; discriminate].
  exists self, g'. split; [reflexivity|].
  rewrite (extra_repr_constructed 6 8 true 0 g' self E). reflexivity.
Defined.

(** X6 at [input_size = 10], [input_size_freq = 6]. *)
Lemma ModelConfig_init_invariants_witness :
  ModelConfig_init args_split = Ok (stored_config args_split) /\
  input_size_freq (stored_config args_split)
  <= input_size (stored_config args_split) /\
  (non_linearity (stored_config args_split) = "relu" \/
   non_linearity (stored_config args_split) = "tanh").
Proof.
  split; [reflexivity|].
  destruct (ModelConfig_init_invariants args_split (stored_config args_split)
              eq_refl) as (_ & Hle & _ & Hnl).
  split; [exact Hle|exact Hnl].
Defined.

(** X7: arguments with no hidden size, a negative output size and dropout
    probabilities of 5 and -1 are accepted like the plain ones. *)
Lemma ModelConfig_init_checks_four_arguments_witness :
  a_non_linearity args_plain = a_non_linearity args_unchecked /\
  a_input_size args_plain = a_input_size args_unchecked /\
  option_map length (a_mapping args_plain)
  = option_map length (a_mapping args_unchecked) /\
  a_input_size_freq args_plain = a_input_size_freq args_unchecked /\
  is_ok (ModelConfig_init args_plain) = true /\
  is_ok (ModelConfig_init args_plain) = is_ok (ModelConfig_init args_unchecked).
Proof.
  split; [reflexivity|]. split; [reflexivity|]. split; [reflexivity|].
  split; [reflexivity|]. split; [reflexivity|].
  apply (ModelConfig_init_checks_four_arguments args_plain args_unchecked);
    reflexivity.
Defined.

(** X9 at [hidden_sizes = [8]], [output_size = 2], [relu]. *)
Lemma LastNet_init_outcome_witness :
  exists lin bs g',
    LastNet_init (stored_config args_plain) 0
    = Ok (mkLastNet (Sequential [Activation nn_ReLU; Dropout 0; Linear lin]), g') /\
    lin_bias lin = Some bs /\
    nn_Linear_shaped lin 8 2.
Proof.
  pose proof (LastNet_init_outcome (stored_config args_plain) 0)
    as (_ & _ & _ & Hcase).
  destruct (Hcase [] 8) as [_ Hok]; [reflexivity..|].
  destruct Hok as (act & lin & bs & g' & E & Hact & Hb & Hs); [lia|simpl; lia|].
  injection Hact as <-.
  exists lin, bs, g'. split; [exact E|]. split; [exact Hb|exact Hs].
Defined.

(** X10 on an input of three rows and eight columns. *)
Lemma LastNet_forward_outcome_witness :
  exists net g',
    LastNet_init (stored_config args_plain) 0 = Ok (net, g') /\
    py_index (hidden_sizes (stored_config args_plain)) (-1) = Ok 8 /\
    has_shape (const_tensor 3 8 1) 3 8 /\
    exists out g2,
      LastNet_forward true net (const_tensor 3 8 1) 5 = Ok (out, g2) /\
      has_shape out 3 2.
Proof.
  destruct (LastNet_init (stored_config args_plain) 0) as [[net g']|e] eqn:E;
    [|vm_compute in E; discriminate].
  assert (Hshape : has_shape (const_tensor 3 8 1) 3 8).
  { unfold has_shape; simpl. repeat split. repeat constructor. }
  exists net, g'. split; [reflexivity|]. split; [reflexivity|].
  split; [exact Hshape|].
  destruct (proj1 (LastNet_forward_outcome (stored_config args_plain) 0 g' net
                     8 (const_tensor 3 8 1) 3 E eq_refl) Hshape true 5)
    as (out & g2 & Hfwd & Hout & _).
  exists out, g2. split; [exact Hfwd|exact Hout].
Defined.

(** X11 at [input_size = input_size_freq = 10], [hidden_sizes = [8]]. *)
Lemma SparseInputNet_init_outcome_witness :
  exists sl g',
    SparseInputNet_init (stored_config args_plain) 0
    = Ok (mkSparseInputNet [10; 0] sl None, g') /\
    sl_bias sl = Some (replicate 8 0).
Proof.
  destruct (proj2 (SparseInputNet_init_outcome (stored_config args_plain) 0)
              8 [] eq_refl) as (_ & _ & _ & Hok).
  destruct Hok as (sl & g' & E & _ & Hb); [simpl; lia|lia|reflexivity|].
  exists sl, g'. split; [exact E|exact Hb].
Defined.

(** X12: four coordinates and one value, with a rare branch. *)
Lemma SparseInputNet_forward_length_mismatch_witness :
  input_splits net_split = [6; 4] /\
  length batch_ind <> length [1] /\
  SparseInputNet_forward net_split batch_ind [1] batch_rows = Raise IndexError.
Proof.
  split; [reflexivity|]. split; [discriminate|].
  apply (SparseInputNet_forward_length_mismatch net_split 6 4 batch_ind [1]
           batch_rows eq_refl).
  discriminate.
Defined.

(** X13 on the two frequent entries, with splits [6, 4]. *)
Lemma SparseInputNet_forward_rare_accepts_witness :
  Forall (in_range batch_rows (6 + 4)) batch_freq_ind /\
  Forall (fun ix : Z * Z => 6 <= ix.2 -> ix.2 < 4) batch_freq_ind /\
  exists out,
    SparseInputNet_forward net_split batch_freq_ind batch_freq_data batch_rows
    = Ok out /\
    has_shape out 3 8.
Proof.
  assert (Hrange : Forall (in_range batch_rows (6 + 4)) batch_freq_ind).
  { unfold batch_freq_ind, batch_rows, in_range.
    repeat constructor; simpl; lia. }
  assert (Hlow : Forall (fun ix : Z * Z => 6 <= ix.2 -> ix.2 < 4) batch_freq_ind).
  { unfold batch_freq_ind. repeat constructor; simpl; lia. }
  split; [exact Hrange|]. split; [exact Hlow|].
  apply (SparseInputNet_forward_rare_accepts net_split 6 4 8 4
           (mkSparseLinear (const_tensor 4 4 1) (Some (replicate 4 0)))
           (mkLinear (const_tensor 8 4 1) None));
    [reflexivity|lia|lia|unfold batch_rows; lia|prove_shaped|reflexivity
    |prove_shaped|prove_shaped|reflexivity|exact Hrange|exact Hlow].
Defined.


(** X16 on the batch with columns 2, 5, 7, 9, split at 6. *)
Lemma split_exhaustive_disjoint_witness :
  length batch_ind = length batch_data /\
  exists ind_f val_f ind_r val_r,
    Xfreq_entries batch_ind batch_data 6 = Ok (ind_f, val_f) /\
    Xrare_entries batch_ind batch_data 6 = Ok (ind_r, val_r) /\
    Permutation (zip ind_f val_f ++ zip ind_r val_r) (zip batch_ind batch_data).
Proof.
  split; [reflexivity|].
  destruct (split_exhaustive_disjoint batch_ind batch_data 6 eq_refl)
    as (ind_f & val_f & ind_r & val_r & Hf & Hr & _ & _ & Hperm & _).
  exists ind_f, val_f, ind_r, val_r. auto.
Defined.

(** X17 on the same batch: the entry in column 7 is beyond both 6 and 4. *)
Lemma SparseInputNet_forward_rare_raises_witness :
  input_splits net_split = [6; 4] /\
  Forall (in_range batch_rows (6 + 4)) batch_ind /\
  In (2, 7) batch_ind /\
  SparseInputNet_forward net_split batch_ind batch_data batch_rows
  = Raise RuntimeError.
Proof.
  split; [reflexivity|]. split; [exact batch_ind_in_range|].
  split; [simpl; tauto|].
  apply (SparseInputNet_forward_rare_raises net_split 6 4 batch_ind batch_data
           batch_rows (2, 7));
    [reflexivity|lia|lia|unfold batch_rows; lia|reflexivity
    |exact batch_ind_in_range|simpl; tauto|simpl; lia|simpl; lia].
Defined.

(** X18 at the plain configuration, on the batch with columns 2, 5, 7, 9. *)
Lemma SparseFFN_forward_shape_witness :
  exists m g',
    SparseFFN_init (stored_config args_plain) 0 = Ok (m, g') /\
    0 <= batch_rows /\
    length batch_ind = length batch_data /\
    Forall (in_range batch_rows (input_size (stored_config args_plain)))
      batch_ind /\
    exists out g2,
      SparseFFN_forward true m batch_ind batch_data batch_rows 3
      = Ok (out, g2) /\
      has_shape out 3 2.
Proof.
  destruct (SparseFFN_init (stored_config args_plain) 0) as [[m g']|e] eqn:E;
    [|vm_compute in E; discriminate].
  exists m, g'. split; [reflexivity|]. split; [unfold batch_rows; lia|].
  split; [reflexivity|]. split; [exact batch_ind_in_range|].
  apply (SparseFFN_forward_shape (stored_config args_plain) 0 g' m batch_ind
           batch_data batch_rows E);
    [unfold batch_rows; lia|reflexivity|exact batch_ind_in_range].
Defined.

End MoreExamples.
